(** * Landsat 8 NDVI notebook: a shallow embedding and its properties

    The notebook [landsat8-cog-ndvi.ipynb] is glue code around pandas and
    xarray.  The embedding follows the notebook cell by cell:

    - [make_google_archive]      (cell "def make_google_archive")
    - [create_multiband_dataset] (cell "def create_multiband_dataset")
    - [load_all]                 (the try/except loading loop)
    - [concat], [unify]          (the [xr.concat] call that builds [DS])
    - [NDVI]                     (the normalised-difference expression)
    - [sel_window]               (the [NDVI.sel(x=slice.., y=slice..)] call)

    Python exceptions are values of [exn]; a computation that may raise has
    type [result A].  The library calls the notebook makes ([str.split],
    slicing, [xr.merge], [xr.concat], [.sel]) are written out as functions
    with the behaviour the notebook relies on. *)

From Stdlib Require Import List ZArith NArith Bool Arith Lia.
From Stdlib Require Import String Ascii.
From Stdlib Require Import Sorting.Sorted Sorting.Permutation.
From Stdlib Require Import Floats.SpecFloat.
Import ListNotations.

Local Open Scope string_scope.
Local Open Scope list_scope.

(** ** Exceptions *)

Inductive exn : Type :=
| IndexError      (* list index out of range *)
| KeyError        (* missing column, variable or label *)
| ValueError      (* pandas / xarray argument errors *)
| MergeError      (* xr.merge: conflicting values *)
| RasterioIOError (* the remote raster could not be opened *).

Inductive result (A : Type) : Type :=
| Ok (a : A)
| Raise (e : exn).
Arguments Ok {A} a.
Arguments Raise {A} e.

Definition bind {A B} (m : result A) (k : A -> result B) : result B :=
  match m with
  | Ok a => k a
  | Raise e => Raise e
  end.

Notation "x <- m ;; k" := (bind m (fun x => k))
  (at level 61, m at next level, right associativity).

Fixpoint mapM {A B} (f : A -> result B) (l : list A) : result (list B) :=
  match l with
  | [] => Ok []
  | a :: l' => b <- f a ;; bs <- mapM f l' ;; Ok (b :: bs)
  end.

(** [l[i]] on a Python list. *)
Definition index {A} (l : list A) (i : nat) : result A :=
  match nth_error l i with
  | Some a => Ok a
  | None => Raise IndexError
  end.

(** ** Python string operations used by the notebook *)

(** [s.split(sep)] for a one-character separator. *)
Fixpoint split (sep : ascii) (s : string) : list string :=
  match s with
  | EmptyString => [EmptyString]
  | String c s' =>
      if Ascii.eqb c sep then EmptyString :: split sep s'
      else match split sep s' with
           | [] => [String c EmptyString]
           | w :: ws => String c w :: ws
           end
  end.

(** [s[1:3]] *)
Definition slice_1_3 (s : string) : string := substring 1 2 s.

(** [s[-2:]] *)
Definition slice_last2 (s : string) : string :=
  substring (String.length s - 2) 2 s.

(** ** The archive table (a pandas DataFrame, row by row) *)

Definition Timestamp := Z.

(** A row of the table: the columns [product_id] and [date] are fields,
    the band columns are kept by name.  In the table a band called
    [product_id] or [date] would overwrite that column; the rows stand
    for tables built from other band names. *)
Record Row : Type := mkRow {
  product_id : string;
  date : Timestamp;
  columns : list (string * string)   (* band name -> URL *)
}.

Definition DataFrame := list Row.

Fixpoint assoc {V} (k : string) (l : list (string * V)) : option V :=
  match l with
  | [] => None
  | (k', v) :: l' => if String.eqb k k' then Some v else assoc k l'
  end.

(** [d[k] = v] on an insertion-ordered dict. *)
Fixpoint assoc_set {V} (k : string) (v : V) (l : list (string * V))
  : list (string * V) :=
  match l with
  | [] => [(k, v)]
  | (k', v') :: l' =>
      if String.eqb k k' then (k, v) :: l' else (k', v') :: assoc_set k v l'
  end.

(** [row[band]], for the name of a band column (other than [product_id]
    and [date]). *)
Definition row_get (r : Row) (band : string) : result string :=
  match assoc band (columns r) with
  | Some u => Ok u
  | None => Raise KeyError
  end.

Definition gcp_prefix : string :=
  "https://storage.googleapis.com/gcp-public-data-landsat/LC08/01/0".

(** [f'{baseurl}/{x}/{x}_{band}.TIF'] *)
Definition band_url (baseurl x band : string) : string :=
  (baseurl ++ "/" ++ x ++ "/" ++ x ++ "_" ++ band ++ ".TIF")%string.

(** [df[band] = [... for x in pids]] *)
Definition set_column (baseurl band : string) (df : DataFrame) : DataFrame :=
  map (fun r => mkRow (product_id r) (date r)
                  (assoc_set band (band_url baseurl (product_id r) band)
                             (columns r)))
      df.

Section Archive.

(** [pd.to_datetime] on the date field of an identifier. *)
Variable to_datetime : string -> result Timestamp.

Definition make_google_archive (pids bands : list string)
  : result DataFrame :=
  pid0 <- index pids 0 ;;
  f2 <- index (split "_" pid0) 2 ;;
  let path := slice_1_3 f2 in
  pid0' <- index pids 0 ;;
  f2' <- index (split "_" pid0') 2 ;;
  let row := slice_last2 f2' in
  let baseurl := (gcp_prefix ++ path ++ "/0" ++ row)%string in
  dates <- mapM (fun x => f3 <- index (split "_" x) 3 ;; to_datetime f3)
                pids ;;
  let df := map (fun xd => mkRow (fst xd) (snd xd) [])
                (combine pids dates) in
  Ok (fold_left (fun d band => set_column baseurl band d) bands df).

(** The cell that builds [df]: the last catalogue entry is dropped. *)
Definition archive_of_catalog (pids : list string) : result DataFrame :=
  make_google_archive (removelast pids) ["B4"; "B5"].

End Archive.

(** A date parser for identifiers whose date field is [YYYYMMDD]; the
    timestamp is the day number read in base ten. *)
Definition is_digit (c : ascii) : bool :=
  ((48 <=? N_of_ascii c) && (N_of_ascii c <=? 57))%N.

Fixpoint parse_dec_from (acc : N) (s : string) : N :=
  match s with
  | EmptyString => acc
  | String c s' => parse_dec_from (10 * acc + (N_of_ascii c - 48))%N s'
  end.

Definition parse_dec (s : string) : N := parse_dec_from 0 s.

Fixpoint all_digits (s : string) : bool :=
  match s with
  | EmptyString => true
  | String c s' => is_digit c && all_digits s'
  end.

Definition to_datetime_yyyymmdd (s : string) : result Timestamp :=
  if all_digits s && (String.length s =? 8)%nat
  then Ok (Z.of_N (parse_dec s))
  else Raise ValueError.

(** The path and row directories of an archive URL: segments 6 and 7 of
    [https://host/bucket/LC08/01/<path>/<row>/<id>/<file>]. *)
Definition uri_path_row (url : string) : option (string * string) :=
  match nth_error (split "/" url) 6, nth_error (split "/" url) 7 with
  | Some p, Some r => Some (p, r)
  | _, _ => None
  end.

(** ** Rasters

    A cell holds the numeric value of a pixel, written as an IEEE binary64
    number.  The rasters of the archive hold 16-bit unsigned digital
    numbers: pixel [n] is the cell [u16 n].  xarray keeps an array in
    uint16 as long as nothing is padded and promotes it to float64 when it
    fills a missing label with NaN, so an array of the model is a float64
    array exactly when it holds a NaN ([dtype_of] below).  The
    missing-value marker and not-a-number are the same value, [NaN]. *)

Definition cell := spec_float.
Definition NaN : cell := S754_nan.

Definition prec : Z := 53.
Definition emax : Z := 1024.
Definition fadd : cell -> cell -> cell := SFadd prec emax.
Definition fsub : cell -> cell -> cell := SFsub prec emax.
Definition fdiv : cell -> cell -> cell := SFdiv prec emax.
Definition feqb : cell -> cell -> bool := SFeqb.

Definition is_nan (c : cell) : bool :=
  match c with S754_nan => true | _ => false end.

Definition is_zero (c : cell) : bool :=
  match c with S754_zero _ => true | _ => false end.

(** The cell of the integer [n]. *)
Definition u16 (n : Z) : cell := binary_normalize prec emax n 0 false.

(** The integer a cell stands for (cells of uint16 arrays are integers). *)
Definition int_of (c : cell) : Z :=
  match c with
  | S754_finite s m e => cond_Zopp s (Z.shiftl (Zpos m) e)
  | _ => 0
  end.

(** A coordinate axis (a pandas Index of pixel-centre coordinates). *)
Definition Index := list Z.

(** Pixel data, one inner list per [y] label. *)
Definition Array2 := list (list cell).

Definition cell_at (d : Array2) (i j : nat) : cell :=
  nth j (nth i d []) NaN.

(** What [xr.open_rasterio(url).squeeze().drop('band')] yields for a
    single-band raster at least two pixels high and two pixels wide: the
    band dimension is squeezed away and a 2-D array with its [y] and [x]
    coordinates is left.  A raster with a single row or a single column
    would lose that dimension too; such rasters are not represented, and
    what is proved about the shape of the datasets assumes [grid_2d]. *)
Record RasterGrid : Type := mkGrid {
  gy : Index;
  gx : Index;
  gdata : Array2
}.

(** An xarray Dataset over dimensions [(y, x)]. *)
Record Dataset : Type := mkDataset {
  ys : Index;
  xs : Index;
  vars : list (string * Array2)
}.

(** [da.to_dataset(name=band)] *)
Definition to_dataset (band : string) (da : RasterGrid) : Dataset :=
  mkDataset (gy da) (gx da) [(band, gdata da)].

(** *** Index union and reindexing (xarray's outer-join alignment) *)

Fixpoint index_eqb (a b : Index) : bool :=
  match a, b with
  | [], [] => true
  | x :: a', y :: b' => (x =? y)%Z && index_eqb a' b'
  | _, _ => false
  end.

Fixpoint insert_label (z : Z) (l : Index) : Index :=
  match l with
  | [] => [z]
  | h :: t =>
      if (z <? h)%Z then z :: l
      else if (z =? h)%Z then l
      else h :: insert_label z t
  end.

Definition sort_unique (l : Index) : Index := fold_right insert_label [] l.

(** [a.union(b)] on pandas indexes without repeated labels.  pandas
    sorts the result except when the two indexes are equal or one of them
    is empty: then the other operand comes back untouched. *)
Definition union_index (a b : Index) : Index :=
  if (List.length b =? 0)%nat || index_eqb a b then a
  else if (List.length a =? 0)%nat then b
  else sort_unique (a ++ b).

(** The joined index of an outer join: untouched when all indexes agree,
    otherwise [reduce(operator.or_, indexes)]. *)
Definition joined_index (idxs : list Index) : Index :=
  match idxs with
  | [] => []
  | i0 :: rest =>
      if forallb (index_eqb i0) rest then i0
      else fold_left union_index rest i0
  end.

(** [index.get_loc(z)], [None] when the label is absent. *)
Fixpoint get_loc (z : Z) (idx : Index) : option nat :=
  match idx with
  | [] => None
  | h :: t => if (z =? h)%Z then Some O else option_map S (get_loc z t)
  end.

(** Label-based read of a pixel; [None] off the grid. *)
Definition lookup_cell (oy ox : Index) (d : Array2) (y x : Z) : option cell :=
  match get_loc y oy, get_loc x ox with
  | Some i, Some j => Some (cell_at d i j)
  | _, _ => None
  end.

(** [reindex] onto new axes: labels the old axes do not have are filled
    with NaN. *)
Definition reindex (oy ox : Index) (d : Array2) (ny nx : Index) : Array2 :=
  map (fun y =>
         map (fun x => match lookup_cell oy ox d y x with
                       | Some c => c
                       | None => NaN
                       end) nx) ny.

Definition reindex_ds (ny nx : Index) (ds : Dataset) : Dataset :=
  mkDataset ny nx
    (map (fun kv => (fst kv, reindex (ys ds) (xs ds) (snd kv) ny nx))
         (vars ds)).

(** [xr.align] of a list of datasets with [join='outer'] *)
Definition align (dss : list Dataset) : list Dataset :=
  map (reindex_ds (joined_index (map ys dss)) (joined_index (map xs dss)))
      dss.

(** *** [xr.merge] *)

Fixpoint forallb2 {A} (p : A -> A -> bool) (a b : list A) : bool :=
  match a, b with
  | [], [] => true
  | x :: a', y :: b' => p x y && forallb2 p a' b'
  | _, _ => false
  end.

(** compat = 'no_conflicts': where both arrays have a value it is the
    same one. *)
Definition no_conflicts (a b : Array2) : bool :=
  forallb2 (forallb2 (fun u v => is_nan u || is_nan v || feqb u v)) a b.

Fixpoint map2 {A B C} (f : A -> B -> C) (a : list A) (b : list B) : list C :=
  match a, b with
  | x :: a', y :: b' => f x y :: map2 f a' b'
  | _, _ => []
  end.

Definition fillna (a b : Array2) : Array2 :=
  map2 (map2 (fun u v => if is_nan u then v else u)) a b.

Fixpoint merge_vars (acc vs : list (string * Array2))
  : result (list (string * Array2)) :=
  match vs with
  | [] => Ok acc
  | (k, a) :: vs' =>
      match assoc k acc with
      | None => merge_vars (acc ++ [(k, a)]) vs'
      | Some b =>
          if no_conflicts b a
          then merge_vars (assoc_set k (fillna b a) acc) vs'
          else Raise MergeError
      end
  end.

Definition merge (dss : list Dataset) : result Dataset :=
  vs <- merge_vars [] (List.concat (map vars (align dss))) ;;
  Ok (mkDataset (joined_index (map ys dss)) (joined_index (map xs dss)) vs).

(** ** Stage A and the loading loop *)

Definition default_bands : list string := ["B4"; "B5"].

(** What the loop prints. *)
Inductive diag : Type :=
| Loading (d : Timestamp)
| Skipped (e : exn).

Section Loading.

(** The remote store: what opening a URL yields. *)
Variable open_rasterio : string -> result RasterGrid.

(** Each band is opened and packed under its name, and the datasets are
    merged.  [squeeze()] and [drop(labels='band')] leave the 2-D array a
    [RasterGrid] stands for; this is what the code does on rasters at
    least two pixels high and two pixels wide ([grid_2d]), a smaller
    raster would lose its [y] or [x] dimension as well. *)
Definition create_multiband_dataset (row : Row) (bands : list string)
  : result Dataset :=
  datasets <- mapM (fun band =>
                      url <- row_get row band ;;
                      da <- open_rasterio url ;;
                      Ok (to_dataset band da)) bands ;;
  merge datasets.

(** [for i,row in df.iterrows(): try: ... except Exception as e: ...] *)
Fixpoint load_all (df : DataFrame) : list Dataset * list diag :=
  match df with
  | [] => ([], [])
  | row :: df' =>
      let (dss, log) := load_all df' in
      match create_multiband_dataset row default_bands with
      | Ok ds => (ds :: dss, Loading (date row) :: log)
      | Raise e => (dss, Loading (date row) :: Skipped e :: log)
      end
  end.

End Loading.

(** ** Stage B: [xr.concat] along a new [time] dimension *)

Record Unified : Type := mkUnified {
  time : list Timestamp;
  uy : Index;
  ux : Index;
  uvars : list (string * list Array2)   (* per band: one slice per time *)
}.

Definition names {V} (l : list (string * V)) : list string := map fst l.

Definition mem (k : string) (l : list string) : bool :=
  existsb (String.eqb k) l.

Definition getvar (k : string) (ds : Dataset) : result Array2 :=
  match assoc k (vars ds) with
  | Some a => Ok a
  | None => Raise KeyError
  end.

(** [xr.concat(datasets, dim=pd.DatetimeIndex(dim, name='time'))]:
    - an empty list is refused;
    - the datasets are aligned with an outer join;
    - a variable the first dataset does not have is refused, a variable
      a later dataset lacks is a KeyError;
    - every variable is stacked in list order;
    - the [time] coordinate is assigned last, and its List.length must be the
      number of stacked datasets. *)
Definition concat (datasets : list Dataset) (dim : list Timestamp)
  : result Unified :=
  match datasets with
  | [] => Raise ValueError
  | first :: rest =>
      let aligned := align datasets in
      if negb (forallb (fun ds => forallb (fun k => mem k (names (vars first)))
                                          (names (vars ds))) rest)
      then Raise ValueError
      else
        stacked <- mapM (fun k => sl <- mapM (getvar k) aligned ;; Ok (k, sl))
                        (names (vars first)) ;;
        if (List.length dim =? List.length datasets)%nat
        then Ok (mkUnified dim (joined_index (map ys datasets))
                           (joined_index (map xs datasets)) stacked)
        else Raise ValueError
  end.

Section Unification.

Variable open_rasterio : string -> result RasterGrid.

(** The two cells that build [DS]. *)
Definition unify (df : DataFrame) : result Unified * list diag :=
  let (datasets, log) := load_all open_rasterio df in
  (concat datasets (map date df), log).

End Unification.

(** ** Index computation *)

(** A DataArray over [(time, y, x)]. *)
Record DataArray : Type := mkDataArray {
  da_time : list Timestamp;
  da_y : Index;
  da_x : Index;
  da_values : list Array2
}.

(** [DS[k]] *)
Definition getitem (DS : Unified) (k : string) : result DataArray :=
  match assoc k (uvars DS) with
  | Some v => Ok (mkDataArray (time DS) (uy DS) (ux DS) v)
  | None => Raise KeyError
  end.

(** Elementwise arithmetic of two arrays of one dataset (their
    coordinates are the same objects, so there is nothing to align). *)
Definition binop (f : cell -> cell -> cell) (a b : DataArray) : DataArray :=
  mkDataArray (da_time a) (da_y a) (da_x a)
    (map2 (map2 (map2 f)) (da_values a) (da_values b)).

(** The element type of an array. *)
Inductive dtype : Type := UInt16 | Float64.

(** An array is float64 exactly when it was padded, that is when it holds
    a NaN; otherwise it still has the uint16 pixels of the rasters. *)
Definition dtype_of (a : DataArray) : dtype :=
  if existsb (existsb (existsb is_nan)) (da_values a)
  then Float64 else UInt16.

(** The element type of [a - b] and [a + b]. *)
Definition result_dtype (a b : dtype) : dtype :=
  match a, b with
  | UInt16, UInt16 => UInt16
  | _, _ => Float64
  end.

(** [-] and [+] in an element type: modulo 2^16 on uint16, IEEE on
    float64. *)
Definition sub_in (dt : dtype) (a b : cell) : cell :=
  match dt with
  | UInt16 => u16 ((int_of a - int_of b) mod 65536)
  | Float64 => fsub a b
  end.

Definition add_in (dt : dtype) (a b : cell) : cell :=
  match dt with
  | UInt16 => u16 ((int_of a + int_of b) mod 65536)
  | Float64 => fadd a b
  end.

(** [NDVI = (DS['B5'] - DS['B4']) / (DS['B5'] + DS['B4'])]: difference
    and sum in the element type of the two bands, and a true division,
    which is a float64 division for both element types. *)
Definition NDVI (DS : Unified) : result DataArray :=
  b5 <- getitem DS "B5" ;;
  b4 <- getitem DS "B4" ;;
  let num := binop (sub_in (result_dtype (dtype_of b5) (dtype_of b4))) b5 b4 in
  b5' <- getitem DS "B5" ;;
  b4' <- getitem DS "B4" ;;
  let den :=
    binop (add_in (result_dtype (dtype_of b5') (dtype_of b4'))) b5' b4' in
  Ok (binop fdiv num den).

(** The cell at position [(t, i, j)] of an array, when there is one. *)
Definition cell_of (a : DataArray) (t i j : nat) : option cell :=
  match nth_error (da_values a) t with
  | Some im => match nth_error im i with
                | Some r => nth_error r j
                | None => None
                end
  | None => None
  end.


(** ** Window selection *)

Fixpoint monotonic (le : Z -> Z -> bool) (idx : Index) : bool :=
  match idx with
  | a :: ((b :: _) as t) => le a b && monotonic le t
  | _ => true
  end.

Definition count (p : Z -> bool) (idx : Index) : nat :=
  List.length (filter p idx).

(** [index.slice_locs(lo, hi)]: positions of the label slice [lo:hi],
    both ends included.  A monotonic index is searched, any other index
    needs both labels to be present. *)
Definition slice_locs (idx : Index) (lo hi : Z) : result (nat * nat) :=
  if monotonic Z.leb idx
  then Ok (count (fun z => z <? lo)%Z idx, count (fun z => z <=? hi)%Z idx)
  else if monotonic Z.geb idx
  then Ok (count (fun z => z >? lo)%Z idx, count (fun z => z >=? hi)%Z idx)
  else match get_loc lo idx, get_loc hi idx with
       | Some p, Some q => Ok (p, S q)
       | _, _ => Raise KeyError
       end.

(** [l[start:stop]] *)
Definition pyslice {A} (start stop : nat) (l : list A) : list A :=
  firstn (stop - start) (skipn start l).

(** [NDVI.sel(x=slice(xcen-buf, xcen+buf), y=slice(ycen-buf, ycen+buf))] *)
Definition sel_window (a : DataArray) (xcen ycen buf : Z)
  : result DataArray :=
  xr <- slice_locs (da_x a) (xcen - buf) (xcen + buf) ;;
  yr <- slice_locs (da_y a) (ycen - buf) (ycen + buf) ;;
  Ok (mkDataArray (da_time a)
        (pyslice (fst yr) (snd yr) (da_y a))
        (pyslice (fst xr) (snd xr) (da_x a))
        (map (fun img => map (pyslice (fst xr) (snd xr))
                             (pyslice (fst yr) (snd yr) img))
             (da_values a))).

(** ** Well-formedness, and notions used in the statements *)

Definition strictly_monotonic (idx : Index) : bool :=
  monotonic Z.ltb idx || monotonic Z.gtb idx.

Definition rectangular (h w : nat) (d : Array2) : bool :=
  (List.length d =? h)%nat && forallb (fun r => (List.length r =? w)%nat) d.

(** A raster as rasterio delivers it: at least one pixel, strictly
    monotonic axes, and data of the shape the axes give. *)
Definition wf_grid (g : RasterGrid) : bool :=
  negb (List.length (gy g) =? 0)%nat && negb (List.length (gx g) =? 0)%nat &&
  strictly_monotonic (gy g) && strictly_monotonic (gx g) &&
  rectangular (List.length (gy g)) (List.length (gx g)) (gdata g).

(** A well-formed raster with at least two rows and two columns: the
    rasters on which [squeeze()] removes the band dimension only. *)
Definition grid_2d (g : RasterGrid) : bool :=
  wf_grid g && (2 <=? List.length (gy g))%nat
  && (2 <=? List.length (gx g))%nat.

(** The shape of a stacked variable and of a whole unified dataset. *)
Definition shape_ok (nt ny nx : nat) (v : list Array2) : bool :=
  (List.length v =? nt)%nat && forallb (rectangular ny nx) v.

Definition wf_unified (DS : Unified) : bool :=
  forallb (fun kv => shape_ok (List.length (time DS)) (List.length (uy DS))
                              (List.length (ux DS)) (snd kv))
          (uvars DS).

(** An operation that returns NaN as soon as one operand is NaN. *)
Definition nan_strict (f : cell -> cell -> cell) : Prop :=
  forall c, f NaN c = NaN /\ f c NaN = NaN.

(** The variable [k] of a dataset, empty when absent. *)
Definition var_of (k : string) (ds : Dataset) : Array2 :=
  match assoc k (vars ds) with
  | Some a => a
  | None => []
  end.

(** The dataset Stage A builds from two opened bands. *)
Definition merged_bands (g4 g5 : RasterGrid) : Dataset :=
  let Y := joined_index [gy g4; gy g5] in
  let X := joined_index [gx g4; gx g5] in
  mkDataset Y X
    [("B4", reindex (gy g4) (gx g4) (gdata g4) Y X);
     ("B5", reindex (gy g5) (gx g5) (gdata g5) Y X)].

(** The unified dataset Stage B builds from datasets with the variables
    of the first one. *)
Definition stacked_on (Y X : Index) (dss : list Dataset) (k : string)
  : string * list Array2 :=
  (k, map (fun ds => reindex (ys ds) (xs ds) (var_of k ds) Y X) dss).

Definition same_names (first ds : Dataset) : Prop :=
  names (vars ds) = names (vars first).

(** A per-item dataset as Stage A delivers it. *)
Definition wf_dataset (ds : Dataset) : bool :=
  negb (List.length (ys ds) =? 0)%nat && negb (List.length (xs ds) =? 0)%nat &&
  strictly_monotonic (ys ds) && strictly_monotonic (xs ds) &&
  forallb (fun kv => rectangular (List.length (ys ds)) (List.length (xs ds))
                                 (snd kv))
          (vars ds).

Definition ascending (idx : Index) : Prop := StronglySorted Z.lt idx.

Definition all_same (idxs : list Index) : Prop :=
  forall a b, In a idxs -> In b idxs -> a = b.

(** The time slices of a unified dataset, each with its timestamp. *)
Definition slice_at (u : Unified) (t : nat) : list (string * Array2) :=
  map (fun kv => (fst kv, nth t (snd kv) [])) (uvars u).

Definition slices (u : Unified) : list (Timestamp * list (string * Array2)) :=
  map (fun t => (nth t (time u) 0%Z, slice_at u t))
      (seq 0 (List.length (time u))).

(** The dataset a row loads to (an empty one when it does not load). *)
Definition loaded (open_rasterio : string -> result RasterGrid) (row : Row)
  : Dataset :=
  match create_multiband_dataset open_rasterio row default_bands with
  | Ok ds => ds
  | Raise _ => mkDataset [] [] []
  end.


Definition three (a b c : ascii) : string := String a (String b (String c "")).
Definition six (a b c d e f : ascii) : string :=
  String a (String b (String c (three d e f))).

Fixpoint no_sep (sep : ascii) (s : string) : bool :=
  match s with
  | EmptyString => true
  | String c s' => negb (Ascii.eqb c sep) && no_sep sep s'
  end.

(** Every URL of a row was built from the base URL and the row's id. *)
Definition row_urls_from (baseurl : string) (r : Row) : Prop :=
  forall k v, In (k, v) (columns r) -> v = band_url baseurl (product_id r) k.


(** ** Example data *)

Definition ex_pid_147127 : string :=
  "LC08_L1TP_147127_20130421_20170310_01_T1".

Definition ex_row_147127 : Row :=
  mkRow ex_pid_147127 20130421%Z
    [("B4", band_url (gcp_prefix ++ "47/027")%string ex_pid_147127 "B4")].

Definition ex_catalog : list string :=
  ["LC08_L1TP_047027_20130421_20170310_01_T1";
   "LC08_L1TP_047027_20130523_20170310_01_T1";
   "LC08_L1TP_047027_20130608_20170310_01_T1"].

(** A 16-bit digital number as a cell (the same as [u16]). *)
Definition of_Z (n : Z) : cell := binary_normalize prec emax n 0 false.

Definition pixels (rows : list (list Z)) : Array2 := map (map of_Z) rows.

(** Scene a: a north-up raster ([y] descending). *)
Definition ex_a4 : RasterGrid :=
  mkGrid [30; 0]%Z [0; 30]%Z (pixels [[1; 2]; [0; 4]]%Z).
Definition ex_a5 : RasterGrid :=
  mkGrid [30; 0]%Z [0; 30]%Z (pixels [[3; 2]; [0; 8]]%Z).

(** Scene b: same sensor grid, shifted by one pixel in both directions. *)
Definition ex_b4 : RasterGrid :=
  mkGrid [60; 30]%Z [30; 60]%Z (pixels [[5; 6]; [7; 8]]%Z).
Definition ex_b5 : RasterGrid :=
  mkGrid [60; 30]%Z [30; 60]%Z (pixels [[9; 6]; [0; 1]]%Z).

(** A store holding scenes a and b; every other URL fails to open. *)
Definition ex_store (u : string) : result RasterGrid :=
  if String.eqb u "a4" then Ok ex_a4
  else if String.eqb u "a5" then Ok ex_a5
  else if String.eqb u "b4" then Ok ex_b4
  else if String.eqb u "b5" then Ok ex_b5
  else Raise RasterioIOError.

Definition ex_row (n : string) (d : Timestamp) : Row :=
  mkRow n d [("B4", (n ++ "4")%string); ("B5", (n ++ "5")%string)].

Definition ex_DS : Unified :=
  Eval vm_compute in
    match fst (unify ex_store [ex_row "a" 5%Z; ex_row "b" 2%Z]) with
    | Ok u => u
    | Raise _ => mkUnified [] [] [] []
    end.

Definition ex_B4 : DataArray :=
  Eval vm_compute in
    match getitem ex_DS "B4" with
    | Ok a => a
    | Raise _ => mkDataArray [] [] [] []
    end.

Definition ex_B5 : DataArray :=
  Eval vm_compute in
    match getitem ex_DS "B5" with
    | Ok a => a
    | Raise _ => mkDataArray [] [] [] []
    end.

Definition ex_NDVI : DataArray :=
  Eval vm_compute in
    match NDVI ex_DS with
    | Ok a => a
    | Raise _ => mkDataArray [] [] [] []
    end.

(** A store whose bands 4 and 5 of item m lie on different grids. *)
Definition ex_store_mis (u : string) : result RasterGrid :=
  if String.eqb u "m4" then Ok ex_a4
  else if String.eqb u "m5" then Ok ex_b5
  else Raise RasterioIOError.

(** Three catalogued items; the rasters of item c are not in the store. *)
Definition ex_df3 : DataFrame :=
  [ex_row "a" 5%Z; ex_row "c" 3%Z; ex_row "b" 2%Z].

Definition ex_ds_a : Dataset := merged_bands ex_a4 ex_a5.

(** Scene w: band 4 brighter than band 5 at its north-west pixel. *)
Definition ex_w4 : RasterGrid :=
  mkGrid [30; 0]%Z [0; 30]%Z (pixels [[7; 2]; [0; 4]]%Z).
Definition ex_w5 : RasterGrid :=
  mkGrid [30; 0]%Z [0; 30]%Z (pixels [[0; 2]; [0; 8]]%Z).

(** A store holding scene w. *)
Definition ex_store_w (u : string) : result RasterGrid :=
  if String.eqb u "w4" then Ok ex_w4
  else if String.eqb u "w5" then Ok ex_w5
  else Raise RasterioIOError.

(** Two acquisitions of scene w: nothing is padded. *)
Definition ex_DS_w : Unified :=
  Eval vm_compute in
    match fst (unify ex_store_w [ex_row "w" 5%Z; ex_row "w" 7%Z]) with
    | Ok u => u
    | Raise _ => mkUnified [] [] [] []
    end.

(** Item m alone: its band 5 lies on another grid than its band 4. *)
Definition ex_DS_m : Unified :=
  Eval vm_compute in
    match fst (unify ex_store_mis [ex_row "m" 1%Z]) with
    | Ok u => u
    | Raise _ => mkUnified [] [] [] []
    end.

(** [p] holds of the [fuel] integers from [n] on. *)
Fixpoint all_from (fuel : nat) (n : Z) (p : Z -> bool) : bool :=
  match fuel with
  | O => true
  | S f => p n && all_from f (n + 1) p
  end.

(** ** Further notions used in the statements *)

(** The item directory and the file name of an archive URL: segments 8
    and 9. *)
Definition uri_item (url : string) : option (string * string) :=
  match nth_error (split "/" url) 8, nth_error (split "/" url) 9 with
  | Some d, Some f => Some (d, f)
  | _, _ => None
  end.

(** The date of an identifier: [pd.to_datetime(x.split('_')[3])]. *)
Definition date_of (to_datetime : string -> result Timestamp) (x : string)
  : result Timestamp :=
  f3 <- index (split "_" x) 3 ;; to_datetime f3.

(** ** The footprint cell *)

(** [l[::2]] and [l[1::2]] *)
Fixpoint evens {A} (l : list A) : list A :=
  match l with
  | a :: _ :: l' => a :: evens l'
  | _ => l
  end.

Definition odds {A} (l : list A) : list A := evens (tl l).

Section Footprint.

(** The coordinate type and Python's [float(...)] on a token. *)
Variable F : Type.
Variable float : string -> result F.

(** From [coordlist = df.polygons.iloc[0]] to [coords]; the argument is
    the [polygons] column. *)
Definition footprint_coords (polygons : list (list (list string)))
  : result (list (F * F)) :=
  coordlist <- index polygons 0 ;;
  ring <- index coordlist 0 ;;
  s <- index ring 0 ;;
  let lats := evens (split " " s) in
  ring' <- index coordlist 0 ;;
  s' <- index ring' 0 ;;
  let lons := odds (split " " s') in
  mapM (fun p => lon <- float (fst p) ;; lat <- float (snd p) ;; Ok (lon, lat))
       (combine lons lats).

End Footprint.

(** ** The tap recorder *)

Definition Point := (Z * Z)%type.

(** [record_coords(x, y)] on the global list [taps]: the new list, which
    is also what the returned [hv.Points(taps)] shows. *)
Definition record_coords (x y : option Z) (taps : list Point) : list Point :=
  match x, y with
  | Some a, Some b => taps ++ [(a, b)]
  | _, _ => taps
  end.

(** [if len(taps) == 0: taps = [(562370, 5312519)]] *)
Definition default_point : Point := (562370, 5312519)%Z.

Definition taps_or_default (taps : list Point) : list Point :=
  if (List.length taps =? 0)%nat then [default_point] else taps.

(** [xcen, ycen = taps[0]] after the events [clicks] of a session. *)
Definition selected_center (clicks : list (option Z * option Z))
  : result Point :=
  index (taps_or_default
           (fold_left (fun taps c => record_coords (fst c) (snd c) taps)
                      clicks []))
        0.

(** The clicks that carry both coordinates. *)
Fixpoint complete_clicks (clicks : list (option Z * option Z)) : list Point :=
  match clicks with
  | [] => []
  | (Some a, Some b) :: cs => (a, b) :: complete_clicks cs
  | _ :: cs => complete_clicks cs
  end.

(** A decimal reader for the tokens of the examples. *)
Definition float_dec (s : string) : result N :=
  if all_digits s && negb (String.length s =? 0)%nat
  then Ok (parse_dec s)
  else Raise ValueError.

(** ** Notions for the loading loop *)

(** Whether a row loads. *)
Definition loads (open_rasterio : string -> result RasterGrid) (row : Row)
  : bool :=
  match create_multiband_dataset open_rasterio row default_bands with
  | Ok _ => true
  | Raise _ => false
  end.

(** A band of a row opens as grid [g]. *)
Definition band_opens (open_rasterio : string -> result RasterGrid)
           (row : Row) (band : string) (g : RasterGrid) : Prop :=
  exists u, row_get row band = Ok u /\ open_rasterio u = Ok g.


(** The dataset Stage A builds from the opened bands, whatever their
    number. *)
Definition merged_grids (bands : list string) (grids : list RasterGrid)
  : Dataset :=
  let Y := joined_index (map gy grids) in
  let X := joined_index (map gx grids) in
  mkDataset Y X
    (map (fun bg => (fst bg,
                     reindex (gy (snd bg)) (gx (snd bg)) (gdata (snd bg)) Y X))
         (combine bands grids)).

(** A row with three band columns. *)
Definition ex_row3 : Row :=
  mkRow "a" 5%Z [("B4", "a4"); ("B5", "a5"); ("B6", "b4")].

(** The index over two scenes that share one north-up grid. *)
Definition ex_NDVI_common : DataArray :=
  Eval vm_compute in
    match fst (unify ex_store [ex_row "a" 5%Z; ex_row "a" 7%Z]) with
    | Ok u => match NDVI u with
              | Ok a => a
              | Raise _ => mkDataArray [] [] [] []
              end
    | Raise _ => mkDataArray [] [] [] []
    end.

(** A store in which every URL opens to the same raster. *)
Definition ex_store_any (u : string) : result RasterGrid := Ok ex_a4.

(** Structural equality of cells. *)
Definition same_cell (a b : cell) : bool :=
  match a, b with
  | S754_zero s, S754_zero s' => Bool.eqb s s'
  | S754_infinity s, S754_infinity s' => Bool.eqb s s'
  | S754_nan, S754_nan => true
  | S754_finite s m e, S754_finite s' m' e' =>
      Bool.eqb s s' && Pos.eqb m m' && Z.eqb e e'
  | _, _ => false
  end.

(** A cell that holds a 16-bit unsigned pixel. *)
Definition is_u16 (c : cell) : bool :=
  ((0 <=? int_of c) && (int_of c <? 65536))%Z && same_cell c (u16 (int_of c)).

(** A raster of uint16 pixels, as the Landsat band files are. *)
Definition uint16_grid (g : RasterGrid) : bool :=
  forallb (forallb is_u16) (gdata g).

(** * Properties *)

(** ** Strings *)


Lemma split_app sep a b :
  no_sep sep a = true ->
  split sep (a ++ String sep b)%string = a :: split sep b.
Proof.
  induction a as [|c a IH]; simpl; intros H.
  - now rewrite Ascii.eqb_refl.
  - apply andb_prop in H as [Hc Ha].
    apply negb_true_iff in Hc. rewrite Hc, (IH Ha). reflexivity.
Qed.

Lemma digit_range c : is_digit c = true -> (48 <= N_of_ascii c <= 57)%N.
Proof.
  unfold is_digit. intros H. apply andb_prop in H as [H1 H2].
  apply N.leb_le in H1. apply N.leb_le in H2. lia.
Qed.

Lemma digit_not_slash c : is_digit c = true -> Ascii.eqb c "/" = false.
Proof.
  intros H. apply digit_range in H.
  destruct (Ascii.eqb c "/") eqn:E; [|reflexivity].
  apply Ascii.eqb_eq in E. subst c. simpl in H. lia.
Qed.

Lemma app_assoc_s (a b c : string) : ((a ++ b) ++ c = a ++ (b ++ c))%string.
Proof. induction a; simpl; congruence. Qed.

Lemma uri_path_row_band_url p2 p3 r2 r3 x band :
  is_digit p2 = true -> is_digit p3 = true ->
  is_digit r2 = true -> is_digit r3 = true ->
  uri_path_row
    (band_url (gcp_prefix ++ String p2 (String p3 "") ++ "/0"
                 ++ String r2 (String r3 "")) x band)
  = Some (three "0" p2 p3, three "0" r2 r3).
Proof.
  intros H2 H3 H4 H5.
  unfold band_url. rewrite !app_assoc_s.
  unfold uri_path_row.
  set (rest := (x ++ "/" ++ x ++ "_" ++ band ++ ".TIF")%string).
  change (gcp_prefix ++ String p2 (String p3 "") ++ "/0"
            ++ String r2 (String r3 "") ++ "/" ++ rest)%string
    with ("https:" ++ String "/" ("" ++ String "/" ("storage.googleapis.com" ++
          String "/" ("gcp-public-data-landsat" ++ String "/" ("LC08" ++
          String "/" ("01" ++ String "/" (three "0" p2 p3 ++ String "/"
             (three "0" r2 r3 ++ String "/" rest))))))))%string.
  rewrite !split_app; try reflexivity.
  - simpl. now rewrite (digit_not_slash _ H4), (digit_not_slash _ H5).
  - simpl. now rewrite (digit_not_slash _ H2), (digit_not_slash _ H3).
Qed.

(** ** The archive table *)

Lemma bind_Ok {A B} (m : result A) (k : A -> result B) b :
  bind m k = Ok b -> exists a, m = Ok a /\ k a = Ok b.
Proof. destruct m; simpl; intros H; [eauto|discriminate]. Qed.

Lemma mapM_length {A B} (f : A -> result B) l bs :
  mapM f l = Ok bs -> List.length bs = List.length l.
Proof.
  revert bs. induction l as [|a l IH]; simpl; intros bs H.
  - now inversion H.
  - apply bind_Ok in H as (b & _ & H).
    apply bind_Ok in H as (bs' & Hbs & H).
    inversion H; subst. simpl. f_equal. now apply IH.
Qed.

Lemma In_assoc_set {V} k (v : V) l k' v' :
  In (k', v') (assoc_set k v l) -> (k', v') = (k, v) \/ In (k', v') l.
Proof.
  induction l as [|[k0 v0] l IH]; simpl.
  - intros [H|[]]; auto.
  - destruct (String.eqb k k0); simpl; intros [H|H]; auto.
    destruct (IH H); auto.
Qed.

Lemma assoc_In {V} k (l : list (string * V)) v :
  assoc k l = Some v -> In (k, v) l.
Proof.
  induction l as [|[k0 v0] l IH]; simpl; [discriminate|].
  destruct (String.eqb k k0) eqn:E.
  - apply String.eqb_eq in E. intros H. inversion H; subst. now left.
  - intros H. right. now apply IH.
Qed.


Lemma set_column_ids baseurl band df :
  map product_id (set_column baseurl band df) = map product_id df.
Proof. unfold set_column. rewrite map_map. reflexivity. Qed.

Lemma set_column_dates baseurl band df :
  map date (set_column baseurl band df) = map date df.
Proof. unfold set_column. rewrite map_map. reflexivity. Qed.

Lemma set_column_urls baseurl band df :
  Forall (row_urls_from baseurl) df ->
  Forall (row_urls_from baseurl) (set_column baseurl band df).
Proof.
  unfold set_column. intros H. apply Forall_map.
  eapply Forall_impl; [|exact H]. intros r Hr k v Hin. simpl in *.
  apply In_assoc_set in Hin as [E|Hin]; [now inversion E|now apply Hr].
Qed.

Lemma fold_set_column baseurl bands df :
  Forall (row_urls_from baseurl) df ->
  let df' := fold_left (fun d band => set_column baseurl band d) bands df in
  map product_id df' = map product_id df /\
  map date df' = map date df /\
  Forall (row_urls_from baseurl) df'.
Proof.
  revert df. induction bands as [|b bands IH]; simpl; intros df H; [auto|].
  destruct (IH _ (set_column_urls baseurl b df H)) as (H1 & H2 & H3).
  rewrite H1, H2, set_column_ids, set_column_dates. auto.
Qed.

Lemma combine_fst {A B} (l : list A) (l' : list B) :
  List.length l' = List.length l -> map fst (combine l l') = l.
Proof.
  revert l'. induction l as [|a l IH]; intros [|b l']; simpl; try easy.
  intros H. f_equal. apply IH. lia.
Qed.

Lemma make_google_archive_inv to_datetime pids bands df :
  make_google_archive to_datetime pids bands = Ok df ->
  exists pid0 f2,
    index pids 0 = Ok pid0 /\ index (split "_" pid0) 2 = Ok f2 /\
    map product_id df = pids /\
    Forall (row_urls_from
              (gcp_prefix ++ slice_1_3 f2 ++ "/0" ++ slice_last2 f2)%string) df.
Proof.
  unfold make_google_archive. intros H.
  apply bind_Ok in H as (pid0 & Hp & H).
  apply bind_Ok in H as (f2 & Hf & H).
  rewrite Hp in H. cbn [bind] in H. rewrite Hf in H. cbn [bind] in H.
  apply bind_Ok in H as (dates & Hd & H).
  exists pid0, f2. split; [assumption|]. split; [assumption|].
  remember (gcp_prefix ++ slice_1_3 f2 ++ "/0" ++ slice_last2 f2)%string
    as base eqn:Hbase.
  injection H as <-.
  match goal with |- context [fold_left ?f bands ?d0] =>
    destruct (fold_set_column base bands d0) as (H1 & _ & H3) end.
  - apply Forall_map. apply Forall_forall. intros x _ k v [].
  - split; [|exact H3].
    rewrite H1, map_map. simpl.
    change (map (fun x => fst x) (combine pids dates))
      with (map fst (combine pids dates)).
    apply combine_fst. now apply mapM_length in Hd.
Qed.

Lemma parse_dec_three a b c :
  parse_dec (three a b c)
  = (10 * (10 * (N_of_ascii a - 48) + (N_of_ascii b - 48))
     + (N_of_ascii c - 48))%N.
Proof. unfold parse_dec. simpl. lia. Qed.

(** C9. The resolver keeps only the second and third characters of the
    path and the last two of the row of the FIRST identifier, behind a
    literal 0: every URL of the table lies under [0<p2p3>/0<r2r3>], and when
    the identifier encodes a path or a row of 100 or more, that is not the
    path/row the identifier names. *)
Theorem C9_resolver_truncates_path_row :
  forall to_datetime pid0 rest bands p1 p2 p3 r1 r2 r3 df,
    index (split "_" pid0) 2 = Ok (six p1 p2 p3 r1 r2 r3) ->
    forallb is_digit [p1; p2; p3; r1; r2; r3] = true ->
    make_google_archive to_datetime (pid0 :: rest) bands = Ok df ->
    forall row band url,
      In row df -> row_get row band = Ok url ->
      url = band_url (gcp_prefix ++ String p2 (String p3 "") ++ "/0"
                        ++ String r2 (String r3 ""))
                     (product_id row) band /\
      uri_path_row url = Some (three "0" p2 p3, three "0" r2 r3) /\
      ((100 <= parse_dec (three p1 p2 p3)
        \/ 100 <= parse_dec (three r1 r2 r3))%N ->
       (parse_dec (three "0" p2 p3), parse_dec (three "0" r2 r3))
       <> (parse_dec (three p1 p2 p3), parse_dec (three r1 r2 r3))).
Proof.
  intros to_datetime pid0 rest bands p1 p2 p3 r1 r2 r3 df Hf Hd Hdf
         row band url Hin Hget.
  apply make_google_archive_inv in Hdf as (pid0' & f2 & Hp & Hf2 & _ & Hall).
  inversion Hp; subst pid0'. rewrite Hf in Hf2. inversion Hf2; subst f2.
  simpl in Hd. repeat (apply andb_prop in Hd as [? Hd]).
  assert (Hurl : url = band_url (gcp_prefix ++ String p2 (String p3 "") ++ "/0"
                        ++ String r2 (String r3 "")) (product_id row) band).
  { rewrite Forall_forall in Hall. specialize (Hall row Hin).
    unfold row_get in Hget. destruct (assoc band (columns row)) eqn:E;
      [|discriminate]. inversion Hget; subst. apply assoc_In in E.
    apply (Hall _ _ E). }
  split; [exact Hurl|]. split.
  - rewrite Hurl. now apply uri_path_row_band_url.
  - intros Hge Heq. rewrite !parse_dec_three in *.
    repeat match goal with H : is_digit _ = true |- _ =>
      apply digit_range in H end.
    change (N_of_ascii "0") with 48%N in Heq.
    apply pair_equal_spec in Heq as [E1 E2]. lia.
Qed.

Lemma C9_resolver_truncates_path_row_witness :
  uri_path_row (band_url (gcp_prefix ++ "47/027")%string ex_pid_147127 "B4")
  = Some ("047", "027") /\
  (parse_dec "047", parse_dec "027") <> (parse_dec "147", parse_dec "127").
Proof.
  pose proof (C9_resolver_truncates_path_row to_datetime_yyyymmdd
                ex_pid_147127 [] ["B4"] "1" "4" "7" "1" "2" "7"
                [ex_row_147127] eq_refl eq_refl eq_refl
                ex_row_147127 "B4" _ (or_introl eq_refl) eq_refl)
    as (_ & H2 & H3).
  split; [exact H2|].
  apply H3. left. vm_compute. discriminate.
Defined.

(** ** The catalogue cell *)

Lemma concat_time datasets dim u :
  concat datasets dim = Ok u ->
  time u = dim /\ List.length dim = List.length datasets.
Proof.
  unfold concat. destruct datasets as [|first rest]; [discriminate|].
  destruct (negb _); [discriminate|].
  intros H. apply bind_Ok in H as (stacked & _ & H).
  destruct (Nat.eqb_spec (List.length dim) (List.length (first :: rest)));
    [|discriminate].
  injection H as <-. auto.
Qed.

Lemma load_all_length open_rasterio df :
  (List.length (fst (load_all open_rasterio df)) <= List.length df)%nat.
Proof.
  induction df as [|row df IH]; simpl; [lia|].
  destruct (load_all open_rasterio df) as [dss log]. simpl in IH.
  destruct (create_multiband_dataset open_rasterio row default_bands);
    simpl; lia.
Qed.

Lemma unify_time open_rasterio df u :
  fst (unify open_rasterio df) = Ok u -> time u = map date df.
Proof.
  unfold unify. destruct (load_all open_rasterio df) as [dss log]. simpl.
  intros H. now apply concat_time in H.
Qed.

(** C10. The table is built from the catalogue without its last entry:
    its product ids are [pids[:-1]], the dropped entry is the last one, and
    whatever the store holds, the time axis of the unified dataset has one
    entry per remaining row, never one for the dropped entry. *)
Theorem C10_last_catalog_entry_dropped :
  forall to_datetime pids df,
    archive_of_catalog to_datetime pids = Ok df ->
    map product_id df = removelast pids /\
    pids = map product_id df ++ [last pids ""] /\
    (NoDup pids -> ~ In (last pids "") (map product_id df)) /\
    forall open_rasterio u,
      (forall url g, open_rasterio url = Ok g -> wf_grid g = true) ->
      fst (unify open_rasterio df) = Ok u ->
      time u = map date df /\
      List.length (time u) = (List.length pids - 1)%nat.
Proof.
  intros to_datetime pids df H. unfold archive_of_catalog in H.
  apply make_google_archive_inv in H as (pid0 & f2 & Hp & _ & Hids & _).
  assert (Hne : pids <> []).
  { intros ->. discriminate Hp. }
  assert (Hsplit : pids = map product_id df ++ [last pids ""]).
  { rewrite Hids. now apply app_removelast_last. }
  split; [exact Hids|]. split; [exact Hsplit|]. split.
  - intros Hnd Hin. rewrite Hsplit in Hnd.
    apply NoDup_remove_2 in Hnd. rewrite app_nil_r in Hnd. contradiction.
  - intros open_rasterio u _ Hu. apply unify_time in Hu. split; [exact Hu|].
    rewrite Hu, length_map.
    rewrite <- (length_map product_id), Hids.
    rewrite Hsplit at 2. rewrite length_app, <- Hids. simpl. lia.
Qed.

Lemma C10_last_catalog_entry_dropped_witness :
  exists df,
    archive_of_catalog to_datetime_yyyymmdd ex_catalog = Ok df /\
    map product_id df = removelast ex_catalog.
Proof.
  eexists. split; [reflexivity|].
  exact (proj1 (C10_last_catalog_entry_dropped to_datetime_yyyymmdd
                  ex_catalog _ eq_refl)).
Defined.

(** ** Index computation *)


Lemma nth_error_map2 {A B C} (f : A -> B -> C) a : forall b i,
  nth_error (map2 f a b) i
  = match nth_error a i, nth_error b i with
    | Some x, Some y => Some (f x y)
    | _, _ => None
    end.
Proof.
  induction a as [|x a IH]; intros b i.
  - simpl. now destruct i.
  - destruct b as [|y b].
    + simpl. destruct i; simpl; [reflexivity|].
      now destruct (nth_error a i).
    + destruct i; simpl; [reflexivity|apply IH].
Qed.

(** A cell of an elementwise combination exists exactly when both
    operands have it, and is then the combination of the two cells. *)
Lemma cell_of_binop f a b t i j :
  cell_of (binop f a b) t i j
  = match cell_of a t i j, cell_of b t i j with
    | Some x, Some y => Some (f x y)
    | _, _ => None
    end.
Proof.
  unfold cell_of, binop. cbn [da_values]. unfold Array2.
  rewrite nth_error_map2.
  destruct (@nth_error (list (list cell)) (da_values a) t) as [ia|];
    destruct (@nth_error (list (list cell)) (da_values b) t) as [ib|];
    try reflexivity.
  - rewrite nth_error_map2.
    destruct (nth_error ia i) as [ra|];
      destruct (nth_error ib i) as [rb|]; try reflexivity.
    + apply nth_error_map2.
    + now destruct (nth_error ra j).
  - destruct (nth_error ia i) as [ra|]; [|reflexivity].
    now destruct (nth_error ra j).
Qed.

Lemma NDVI_unfold DS b4 b5 :
  getitem DS "B4" = Ok b4 -> getitem DS "B5" = Ok b5 ->
  NDVI DS
  = Ok (binop fdiv
          (binop (sub_in (result_dtype (dtype_of b5) (dtype_of b4))) b5 b4)
          (binop (add_in (result_dtype (dtype_of b5) (dtype_of b4))) b5 b4)).
Proof. unfold NDVI. intros -> ->. reflexivity. Qed.

Lemma cell_of_NDVI dt b4 b5 t i j c4 c5 :
  cell_of b4 t i j = Some c4 -> cell_of b5 t i j = Some c5 ->
  cell_of (binop fdiv (binop (sub_in dt) b5 b4) (binop (add_in dt) b5 b4))
          t i j
  = Some (fdiv (sub_in dt c5 c4) (add_in dt c5 c4)).
Proof.
  intros H4 H5. rewrite !cell_of_binop, H4, H5. reflexivity.
Qed.

(** An array that holds a NaN is a float64 array. *)
Lemma dtype_of_nan a t i j c :
  cell_of a t i j = Some c -> is_nan c = true -> dtype_of a = Float64.
Proof.
  unfold cell_of, dtype_of. intros H Hc.
  destruct (nth_error (da_values a) t) as [im|] eqn:Et; [|discriminate].
  destruct (nth_error im i) as [r|] eqn:Ei; [|discriminate].
  apply nth_error_In in Et, Ei, H.
  replace (existsb (existsb (existsb is_nan)) (da_values a)) with true;
    [reflexivity|].
  symmetry. apply existsb_exists. exists im. split; [assumption|].
  apply existsb_exists. exists r. split; [assumption|].
  apply existsb_exists. exists c. auto.
Qed.

Lemma all_from_spec fuel : forall n p,
  all_from fuel n p = true ->
  forall z, (n <= z < n + Z.of_nat fuel)%Z -> p z = true.
Proof.
  induction fuel as [|f IH]; intros n p H z Hz; [lia|].
  cbn [all_from] in H. apply andb_prop in H as [Hn Hrest].
  destruct (Z.eq_dec z n) as [->|Hne]; [assumption|].
  apply (IH (n + 1)%Z p Hrest). lia.
Qed.

(** Every 16-bit unsigned integer is read back from its cell. *)
Lemma int_of_u16 n : (0 <= n < 65536)%Z -> int_of (u16 n) = n.
Proof.
  intros H. apply Z.eqb_eq.
  apply (all_from_spec (Z.to_nat 65536) 0 (fun z => int_of (u16 z) =? z)%Z).
  - vm_compute. reflexivity.
  - rewrite Z2Nat.id by lia. lia.
Qed.

Lemma map2_length {A B C} (f : A -> B -> C) a b :
  List.length a = List.length b ->
  List.length (map2 f a b) = List.length a.
Proof.
  revert b. induction a as [|x a IH]; intros [|y b]; simpl; try easy.
  intros H. f_equal. apply IH. lia.
Qed.

Lemma rectangular_map2 {h w} f (a b : Array2) :
  rectangular h w a = true -> rectangular h w b = true ->
  rectangular h w (map2 (map2 f) a b) = true.
Proof.
  unfold rectangular. intros Ha Hb.
  apply andb_prop in Ha as [La Ra]. apply andb_prop in Hb as [Lb Rb].
  apply Nat.eqb_eq in La, Lb. apply andb_true_intro. split.
  - apply Nat.eqb_eq. rewrite map2_length; congruence.
  - clear La Lb. revert b Rb.
    induction a as [|x a IH]; intros [|y b] Rb; simpl in *; try reflexivity.
    apply andb_prop in Ra as [Hx Ra]. apply andb_prop in Rb as [Hy Rb].
    apply Nat.eqb_eq in Hx, Hy.
    rewrite (IH Ra _ Rb), andb_true_r.
    apply Nat.eqb_eq. rewrite map2_length; congruence.
Qed.

Lemma shape_ok_map2 {nt ny nx} f (a b : list Array2) :
  shape_ok nt ny nx a = true -> shape_ok nt ny nx b = true ->
  shape_ok nt ny nx (map2 (map2 (map2 f)) a b) = true.
Proof.
  unfold shape_ok, Array2. intros Ha Hb.
  apply andb_prop in Ha as [La Ra]. apply andb_prop in Hb as [Lb Rb].
  apply Nat.eqb_eq in La, Lb. apply andb_true_intro. split.
  - apply Nat.eqb_eq. rewrite map2_length; congruence.
  - clear La Lb. revert b Rb.
    induction a as [|x a IH]; intros [|y b] Rb; simpl in *; try reflexivity.
    apply andb_prop in Ra as [Hx Ra]. apply andb_prop in Rb as [Hy Rb].
    now rewrite (IH Ra _ Rb), andb_true_r, rectangular_map2.
Qed.

Lemma getitem_shape DS k a :
  wf_unified DS = true -> getitem DS k = Ok a ->
  da_time a = time DS /\ da_y a = uy DS /\ da_x a = ux DS /\
  shape_ok (List.length (time DS)) (List.length (uy DS))
           (List.length (ux DS)) (da_values a) = true.
Proof.
  unfold wf_unified, getitem. intros Hwf H.
  destruct (assoc k (uvars DS)) as [v|] eqn:E; [|discriminate].
  injection H as <-. simpl. repeat split.
  rewrite forallb_forall in Hwf. apply assoc_In in E.
  exact (Hwf _ E).
Qed.

(** C4, where the code departs from it.  On bands that were not padded
    the pixels are still 16-bit unsigned numbers, and the difference and
    the sum are taken modulo 2^16 before the division: at a cell with
    pixels [n4] in B4 and [n5] in B5 the index is
    ((n5 - n4) mod 2^16) / ((n5 + n4) mod 2^16), which is not
    (n5 - n4) / (n5 + n4) as soon as band 4 is the brighter one. *)
Theorem C4_ndvi_wraps_on_unpadded_pixels :
  forall DS b4 b5 t i j n4 n5,
    getitem DS "B4" = Ok b4 -> getitem DS "B5" = Ok b5 ->
    dtype_of b4 = UInt16 -> dtype_of b5 = UInt16 ->
    cell_of b4 t i j = Some (u16 n4) -> cell_of b5 t i j = Some (u16 n5) ->
    (0 <= n4 < 65536)%Z -> (0 <= n5 < 65536)%Z ->
    exists nd,
      NDVI DS = Ok nd /\
      cell_of nd t i j
      = Some (fdiv (u16 ((n5 - n4) mod 65536)) (u16 ((n5 + n4) mod 65536))).
Proof.
  intros DS b4 b5 t i j n4 n5 H4 H5 D4 D5 C4 C5 R4 R5.
  eexists. split; [apply (NDVI_unfold _ _ _ H4 H5)|].
  rewrite D4, D5. cbn [result_dtype].
  rewrite (cell_of_NDVI UInt16 _ _ _ _ _ _ _ C4 C5).
  unfold sub_in, add_in. now rewrite !int_of_u16.
Qed.

Lemma C4_ndvi_wraps_on_unpadded_pixels_witness :
  fst (unify ex_store_w [ex_row "w" 5%Z; ex_row "w" 7%Z]) = Ok ex_DS_w /\
  exists nd,
    NDVI ex_DS_w = Ok nd /\
    cell_of nd 0 0 0 = Some (fdiv (u16 65529) (u16 7)) /\
    fdiv (u16 65529) (u16 7) <> fdiv (fsub (u16 0) (u16 7))
                                     (fadd (u16 0) (u16 7)).
Proof.
  split; [reflexivity|].
  destruct (C4_ndvi_wraps_on_unpadded_pixels ex_DS_w _ _ 0 0 0 7 0
              eq_refl eq_refl eq_refl eq_refl eq_refl eq_refl)
    as (nd & Hnd & Hcell); try (split; [discriminate|reflexivity]).
  exists nd. split; [exact Hnd|]. split; [exact Hcell|]. discriminate.
Defined.

(** C5. Where both bands are zero the index is NaN: the computation
    returns, the cell of the index is there, and it holds NaN, not zero.
    This is so on uint16 pixels (0 - 0 and 0 + 0 are 0, and the true
    division 0 / 0 is NaN) and on float64 values. *)
Theorem C5_zero_over_zero_is_nan :
  forall DS b4 b5 t i j c4 c5,
    getitem DS "B4" = Ok b4 -> getitem DS "B5" = Ok b5 ->
    cell_of b4 t i j = Some c4 -> cell_of b5 t i j = Some c5 ->
    is_zero c4 = true -> is_zero c5 = true ->
    exists nd,
      NDVI DS = Ok nd /\
      cell_of nd t i j = Some NaN /\ is_zero NaN = false.
Proof.
  intros DS b4 b5 t i j c4 c5 H4 H5 C4 C5 Z4 Z5.
  eexists. split; [apply (NDVI_unfold _ _ _ H4 H5)|].
  split; [|reflexivity].
  rewrite (cell_of_NDVI _ _ _ _ _ _ _ _ C4 C5). f_equal.
  destruct c4 as [s4| | |]; try discriminate.
  destruct c5 as [s5| | |]; try discriminate.
  destruct (result_dtype (dtype_of b5) (dtype_of b4)).
  - reflexivity.
  - destruct s4, s5; reflexivity.
Qed.

Lemma C5_zero_over_zero_is_nan_witness :
  cell_of ex_B4 0 0 0 = Some (u16 0) /\ cell_of ex_B5 0 0 0 = Some (u16 0) /\
  exists nd, NDVI ex_DS = Ok nd /\ cell_of nd 0 0 0 = Some NaN.
Proof.
  split; [reflexivity|]. split; [reflexivity|].
  destruct (C5_zero_over_zero_is_nan ex_DS ex_B4 ex_B5 0 0 0 _ _
              eq_refl eq_refl eq_refl eq_refl eq_refl eq_refl)
    as (nd & Hnd & Hcell & _).
  exists nd. split; [exact Hnd|exact Hcell].
Defined.

(** C6. A NaN (the missing-value marker) in either band at a cell gives
    NaN at the same cell of the index: the computation returns, the cell
    of the index is there and it holds NaN.  (A band that holds a NaN was
    padded, so the arithmetic is the float64 one.) *)
Theorem C6_missing_propagates :
  forall DS b4 b5 t i j c4 c5,
    getitem DS "B4" = Ok b4 -> getitem DS "B5" = Ok b5 ->
    cell_of b4 t i j = Some c4 -> cell_of b5 t i j = Some c5 ->
    is_nan c4 = true \/ is_nan c5 = true ->
    exists nd,
      NDVI DS = Ok nd /\ cell_of nd t i j = Some NaN.
Proof.
  intros DS b4 b5 t i j c4 c5 H4 H5 C4 C5 Hnan.
  eexists. split; [apply (NDVI_unfold _ _ _ H4 H5)|].
  rewrite (cell_of_NDVI _ _ _ _ _ _ _ _ C4 C5). f_equal.
  destruct Hnan as [Hn|Hn].
  - rewrite (dtype_of_nan _ _ _ _ _ C4 Hn).
    destruct (dtype_of b5); cbn [result_dtype sub_in add_in];
      destruct c4; try discriminate; destruct c5; reflexivity.
  - rewrite (dtype_of_nan _ _ _ _ _ C5 Hn). cbn [result_dtype sub_in add_in].
    destruct c5; try discriminate. reflexivity.
Qed.

Lemma C6_missing_propagates_witness :
  fst (unify ex_store_mis [ex_row "m" 1%Z]) = Ok ex_DS_m /\
  exists b4 b5 nd,
    getitem ex_DS_m "B4" = Ok b4 /\ getitem ex_DS_m "B5" = Ok b5 /\
    cell_of b4 0 0 1 = Some (u16 4) /\ cell_of b5 0 0 1 = Some NaN /\
    NDVI ex_DS_m = Ok nd /\ cell_of nd 0 0 1 = Some NaN.
Proof.
  split; [reflexivity|].
  eexists. eexists.
  destruct (C6_missing_propagates ex_DS_m _ _ 0 0 1 _ _
              eq_refl eq_refl eq_refl eq_refl (or_intror eq_refl))
    as (nd & Hnd & Hc).
  exists nd. repeat split; try reflexivity; assumption.
Defined.

(** ** Stage A *)

Lemma grid_2d_wf g : grid_2d g = true -> wf_grid g = true.
Proof.
  unfold grid_2d. intros H.
  apply andb_prop in H as [H _]. now apply andb_prop in H as [H _].
Qed.

Lemma store_2d_wf (open_rasterio : string -> result RasterGrid) :
  (forall u g, open_rasterio u = Ok g -> grid_2d g = true) ->
  forall u g, open_rasterio u = Ok g -> wf_grid g = true.
Proof. intros H u g Hu. apply grid_2d_wf. exact (H u g Hu). Qed.

Lemma ex_store_2d u g : ex_store u = Ok g -> grid_2d g = true.
Proof.
  unfold ex_store.
  repeat match goal with |- context [String.eqb u ?s] =>
           destruct (String.eqb u s) end;
    intros H; inversion H; reflexivity.
Qed.

Lemma ex_store_mis_2d u g : ex_store_mis u = Ok g -> grid_2d g = true.
Proof.
  unfold ex_store_mis.
  repeat match goal with |- context [String.eqb u ?s] =>
           destruct (String.eqb u s) end;
    intros H; inversion H; reflexivity.
Qed.

Lemma ex_store_wf u g : ex_store u = Ok g -> wf_grid g = true.
Proof.
  unfold ex_store.
  repeat match goal with |- context [String.eqb u ?s] =>
           destruct (String.eqb u s) end;
    intros H; inversion H; reflexivity.
Qed.

Lemma create_multiband_default open_rasterio row u4 u5 g4 g5 :
  row_get row "B4" = Ok u4 -> row_get row "B5" = Ok u5 ->
  open_rasterio u4 = Ok g4 -> open_rasterio u5 = Ok g5 ->
  create_multiband_dataset open_rasterio row default_bands
  = Ok (merged_bands g4 g5).
Proof.
  intros R4 R5 O4 O5. unfold create_multiband_dataset, default_bands.
  simpl. rewrite R4. simpl. rewrite O4. simpl.
  rewrite R5. simpl. rewrite O5. reflexivity.
Qed.

Lemma create_multiband_default_inv open_rasterio row ds :
  create_multiband_dataset open_rasterio row default_bands = Ok ds ->
  exists u4 u5 g4 g5,
    row_get row "B4" = Ok u4 /\ row_get row "B5" = Ok u5 /\
    open_rasterio u4 = Ok g4 /\ open_rasterio u5 = Ok g5 /\
    ds = merged_bands g4 g5.
Proof.
  intros H.
  destruct (row_get row "B4") as [u4|] eqn:R4;
    [|unfold create_multiband_dataset in H; simpl in H;
      rewrite R4 in H; discriminate].
  destruct (open_rasterio u4) as [g4|] eqn:O4;
    [|unfold create_multiband_dataset in H; simpl in H;
      rewrite R4 in H; simpl in H; rewrite O4 in H; discriminate].
  destruct (row_get row "B5") as [u5|] eqn:R5;
    [|unfold create_multiband_dataset in H; simpl in H;
      rewrite R4 in H; simpl in H; rewrite O4 in H; simpl in H;
      rewrite R5 in H; discriminate].
  destruct (open_rasterio u5) as [g5|] eqn:O5;
    [|unfold create_multiband_dataset in H; simpl in H;
      rewrite R4 in H; simpl in H; rewrite O4 in H; simpl in H;
      rewrite R5 in H; simpl in H; rewrite O5 in H; discriminate].
  rewrite (create_multiband_default _ _ _ _ _ _ R4 R5 O4 O5) in H.
  injection H as <-. exists u4, u5, g4, g5. auto.
Qed.

Lemma create_multiband_default_raise open_rasterio row e :
  create_multiband_dataset open_rasterio row default_bands = Raise e ->
  exists band,
    In band default_bands /\
    (row_get row band = Raise e \/
     exists u, row_get row band = Ok u /\ open_rasterio u = Raise e).
Proof.
  intros H.
  destruct (row_get row "B4") as [u4|e4] eqn:R4.
  2:{ unfold create_multiband_dataset in H; simpl in H; rewrite R4 in H.
      injection H as <-. exists "B4". split; [now left|now left]. }
  destruct (open_rasterio u4) as [g4|e4] eqn:O4.
  2:{ unfold create_multiband_dataset in H; simpl in H; rewrite R4 in H;
      simpl in H; rewrite O4 in H. injection H as <-.
      exists "B4". split; [now left|right; eauto]. }
  destruct (row_get row "B5") as [u5|e5] eqn:R5.
  2:{ unfold create_multiband_dataset in H; simpl in H; rewrite R4 in H;
      simpl in H; rewrite O4 in H; simpl in H; rewrite R5 in H.
      injection H as <-. exists "B5". split; [right; now left|now left]. }
  destruct (open_rasterio u5) as [g5|e5] eqn:O5.
  2:{ unfold create_multiband_dataset in H; simpl in H; rewrite R4 in H;
      simpl in H; rewrite O4 in H; simpl in H; rewrite R5 in H;
      simpl in H; rewrite O5 in H. injection H as <-.
      exists "B5". split; [right; now left|right; eauto]. }
  rewrite (create_multiband_default _ _ _ _ _ _ R4 R5 O4 O5) in H.
  discriminate.
Qed.

(** C7, as the code has it.  For rasters at least two pixels high and
    two pixels wide (so that [squeeze()] removes the band dimension only),
    Stage A does not compare the axes of the bands: when both rasters of
    an item open, the result is their outer-join merge, whatever their
    axes, and the only failures are a missing column and a raster that
    does not open. *)
Theorem C7_stage_a_merges_without_axis_check :
  forall open_rasterio row,
    (forall u g, open_rasterio u = Ok g -> grid_2d g = true) ->
    (forall u4 u5 g4 g5,
        row_get row "B4" = Ok u4 -> row_get row "B5" = Ok u5 ->
        open_rasterio u4 = Ok g4 -> open_rasterio u5 = Ok g5 ->
        create_multiband_dataset open_rasterio row default_bands
        = Ok (merged_bands g4 g5)) /\
    (forall e,
        create_multiband_dataset open_rasterio row default_bands = Raise e ->
        exists band,
          In band default_bands /\
          (row_get row band = Raise e \/
           exists u, row_get row band = Ok u /\ open_rasterio u = Raise e)).
Proof.
  intros open_rasterio row _. split.
  - apply create_multiband_default.
  - apply create_multiband_default_raise.
Qed.

Lemma C7_stage_a_merges_without_axis_check_witness :
  create_multiband_dataset ex_store_mis (ex_row "m" 1%Z) default_bands
  = Ok (merged_bands ex_a4 ex_b5).
Proof.
  exact (proj1 (C7_stage_a_merges_without_axis_check ex_store_mis
                  (ex_row "m" 1%Z) ex_store_mis_2d)
               "m4" "m5" ex_a4 ex_b5 eq_refl eq_refl eq_refl eq_refl).
Defined.

(** C7, as claimed, fails: bands 4 and 5 of item m are two-by-two
    rasters with different axes and Stage A returns a dataset. *)
Lemma C7_misaligned_bands_are_merged :
  grid_2d ex_a4 = true /\ grid_2d ex_b5 = true /\
  (gy ex_a4, gx ex_a4) <> (gy ex_b5, gx ex_b5) /\
  ex_store_mis "m4" = Ok ex_a4 /\ ex_store_mis "m5" = Ok ex_b5 /\
  create_multiband_dataset ex_store_mis (ex_row "m" 1%Z) default_bands
  = Ok (mkDataset [0; 30; 60]%Z [0; 30; 60]%Z
          [("B4", [[of_Z 0; of_Z 4; NaN]; [of_Z 1; of_Z 2; NaN];
                   [NaN; NaN; NaN]]);
           ("B5", [[NaN; NaN; NaN]; [NaN; of_Z 0; of_Z 1];
                   [NaN; of_Z 9; of_Z 6]])]).
Proof.
  split; [reflexivity|]. split; [reflexivity|].
  split; [discriminate|]. repeat split; vm_compute; reflexivity.
Qed.

(** ** Indexes *)

Lemma index_eqb_eq a b : index_eqb a b = true <-> a = b.
Proof.
  revert b. induction a as [|x a IH]; intros [|y b]; simpl;
    try (split; [discriminate|discriminate]); [tauto|].
  rewrite andb_true_iff, Z.eqb_eq, IH. split.
  - intros [-> ->]. reflexivity.
  - intros H. inversion H. auto.
Qed.

Lemma In_insert_label z l x :
  In x (insert_label z l) <-> x = z \/ In x l.
Proof.
  induction l as [|h t IH]; simpl.
  - intuition.
  - destruct (Z.ltb_spec z h); [simpl; intuition|].
    destruct (Z.eqb_spec z h); [subst; simpl; intuition|].
    simpl. rewrite IH. intuition.
Qed.

Lemma In_sort_unique l x : In x (sort_unique l) <-> In x l.
Proof.
  unfold sort_unique. induction l as [|z l IH]; simpl; [tauto|].
  rewrite In_insert_label, IH. intuition.
Qed.

Lemma insert_label_ascending z l :
  ascending l -> ascending (insert_label z l).
Proof.
  unfold ascending. induction l as [|h t IH]; simpl; intros Hs.
  - repeat constructor.
  - inversion Hs as [|? ? Ht Hh]; subst.
    destruct (Z.ltb_spec z h).
    + constructor; [assumption|]. constructor; [assumption|].
      eapply Forall_impl; [|exact Hh]. intros; lia.
    + destruct (Z.eqb_spec z h); [assumption|].
      constructor; [auto|].
      apply Forall_forall. intros x Hx. apply In_insert_label in Hx as [->|Hx].
      * lia.
      * rewrite Forall_forall in Hh. auto.
Qed.

Lemma sort_unique_ascending l : ascending (sort_unique l).
Proof.
  unfold sort_unique. induction l as [|z l IH]; simpl.
  - constructor.
  - now apply insert_label_ascending.
Qed.

Lemma ascending_ext a b :
  ascending a -> ascending b -> (forall z, In z a <-> In z b) -> a = b.
Proof.
  unfold ascending. revert b.
  induction a as [|x a IH]; intros b Ha Hb Hab.
  - destruct b as [|y b]; [reflexivity|].
    exfalso. apply (Hab y). now left.
  - destruct b as [|y b]; [exfalso; apply (Hab x); now left|].
    inversion Ha as [|? ? Ha' Hx]; inversion Hb as [|? ? Hb' Hy]; subst.
    rewrite Forall_forall in Hx, Hy.
    assert (x = y).
    { destruct (proj1 (Hab x) (or_introl eq_refl)) as [E|Hin]; [auto|].
      destruct (proj2 (Hab y) (or_introl eq_refl)) as [E|Hin']; [auto|].
      specialize (Hx _ Hin'). specialize (Hy _ Hin). lia. }
    subst y. f_equal. apply IH; try assumption.
    intros z. split; intros Hz.
    + destruct (proj1 (Hab z) (or_intror Hz)) as [E|Hin]; [|assumption].
      subst z. specialize (Hx _ Hz). lia.
    + destruct (proj2 (Hab z) (or_intror Hz)) as [E|Hin]; [|assumption].
      subst z. specialize (Hy _ Hz). lia.
Qed.

Lemma sort_unique_ext a b :
  (forall z, In z a <-> In z b) -> sort_unique a = sort_unique b.
Proof.
  intros H. apply ascending_ext; try apply sort_unique_ascending.
  intros z. rewrite !In_sort_unique. apply H.
Qed.

Lemma length_zero_false {A} (l : list A) :
  l <> [] -> (List.length l =? 0)%nat = false.
Proof. destruct l; [congruence|reflexivity]. Qed.

Lemma forallb_index_eqb acc rest :
  forallb (index_eqb acc) rest = true <-> Forall (eq acc) rest.
Proof.
  rewrite forallb_forall, Forall_forall. split; intros H x Hx.
  - now apply index_eqb_eq, H.
  - now apply index_eqb_eq, H.
Qed.

(** Folding [union_index] over non-empty indexes: the first index when
    all agree, the sorted union of all labels otherwise. *)
Lemma fold_union_index rest :
  forall acc,
    acc <> [] -> Forall (fun i => i <> []) rest ->
    fold_left union_index rest acc
    = if forallb (index_eqb acc) rest then acc
      else sort_unique (acc ++ List.concat rest).
Proof.
  induction rest as [|i rest IH]; intros acc Hacc Hne; [reflexivity|].
  inversion Hne as [|? ? Hi Hrest]; subst.
  cbn [fold_left forallb List.concat].
  unfold union_index at 2. rewrite (length_zero_false i Hi).
  cbn [orb].
  destruct (index_eqb acc i) eqn:E.
  - apply index_eqb_eq in E. subst i. cbn [andb].
    rewrite (IH acc Hacc Hrest).
    destruct (forallb (index_eqb acc) rest); [reflexivity|].
    apply sort_unique_ext. intros z. rewrite !in_app_iff. tauto.
  - rewrite (length_zero_false acc Hacc). cbn [andb].
    assert (Hacc' : sort_unique (acc ++ i) <> []).
    { destruct acc as [|a acc]; [congruence|]. intros Hnil.
      assert (Hin : In a (sort_unique ((a :: acc) ++ i))).
      { apply In_sort_unique. now left. }
      rewrite Hnil in Hin. destruct Hin. }
    rewrite (IH _ Hacc' Hrest).
    destruct (forallb (index_eqb (sort_unique (acc ++ i))) rest) eqn:F.
    + apply forallb_index_eqb in F. rewrite Forall_forall in F.
      apply ascending_ext; try apply sort_unique_ascending.
      intros z. rewrite !In_sort_unique, !in_app_iff, in_concat.
      split; [tauto|]. intros [H|[H|(j & Hj & Hz)]]; auto.
      rewrite <- (F j Hj), In_sort_unique, in_app_iff in Hz. tauto.
    + apply sort_unique_ext. intros z.
      rewrite !in_app_iff, In_sort_unique, in_app_iff. tauto.
Qed.

Lemma joined_index_spec i0 rest :
  Forall (fun i => i <> []) (i0 :: rest) ->
  joined_index (i0 :: rest)
  = if forallb (index_eqb i0) rest then i0
    else sort_unique (List.concat (i0 :: rest)).
Proof.
  intros H. inversion H; subst. unfold joined_index.
  destruct (forallb (index_eqb i0) rest) eqn:E; [reflexivity|].
  rewrite fold_union_index, E by assumption. reflexivity.
Qed.

Lemma all_same_cons i0 rest :
  forallb (index_eqb i0) rest = true <-> all_same (i0 :: rest).
Proof.
  rewrite forallb_index_eqb, Forall_forall. unfold all_same. split.
  - intros H a b [<-|Ha] [<-|Hb]; auto.
    + symmetry. auto.
    + rewrite <- (H a Ha). auto.
  - intros H x Hx. apply H; [now left|now right].
Qed.

(** The joined index holds exactly the labels of the joined indexes. *)
Lemma In_joined_index idxs z :
  Forall (fun i => i <> []) idxs ->
  In z (joined_index idxs) <-> exists i, In i idxs /\ In z i.
Proof.
  intros Hne. destruct idxs as [|i0 rest].
  - simpl. split; [easy|]. intros (i & [] & _).
  - rewrite joined_index_spec by assumption.
    destruct (forallb (index_eqb i0) rest) eqn:E.
    + apply all_same_cons in E. split.
      * intros Hz. exists i0. split; [now left|assumption].
      * intros (i & Hi & Hz). now rewrite (E i0 i (or_introl eq_refl) Hi).
    + rewrite In_sort_unique, in_concat. split.
      * intros (i & Hi & Hz). eauto.
      * intros (i & Hi & Hz). eauto.
Qed.

(** It is sorted as soon as two of the joined indexes differ ... *)
Lemma joined_index_ascending idxs :
  Forall (fun i => i <> []) idxs ->
  ~ all_same idxs -> ascending (joined_index idxs).
Proof.
  intros Hne Hdiff. destruct idxs as [|i0 rest].
  - exfalso. apply Hdiff. intros a b [].
  - rewrite joined_index_spec by assumption.
    destruct (forallb (index_eqb i0) rest) eqn:E.
    + exfalso. apply Hdiff. now apply all_same_cons.
    + apply sort_unique_ascending.
Qed.

(** ... and is the common index, untouched, when they all agree. *)
Lemma joined_index_all_same idxs i :
  all_same idxs -> In i idxs -> joined_index idxs = i.
Proof.
  intros Hsame Hin. destruct idxs as [|i0 rest]; [destruct Hin|].
  unfold joined_index.
  rewrite (proj2 (all_same_cons i0 rest) Hsame).
  apply Hsame; [now left|assumption].
Qed.

Lemma all_same_dec idxs : all_same idxs \/ ~ all_same idxs.
Proof.
  destruct idxs as [|i0 rest].
  - left. intros a b [].
  - destruct (forallb (index_eqb i0) rest) eqn:E.
    + left. now apply all_same_cons.
    + right. intros H. apply all_same_cons in H. congruence.
Qed.

(** The joined index does not depend on the order of the indexes. *)
Lemma joined_index_perm idxs idxs' :
  Forall (fun i => i <> []) idxs ->
  Permutation idxs idxs' ->
  joined_index idxs = joined_index idxs'.
Proof.
  intros Hne Hp.
  assert (Hne' : Forall (fun i => i <> []) idxs').
  { eapply Permutation_Forall; eassumption. }
  destruct idxs as [|i0 rest].
  - apply Permutation_nil in Hp. now subst.
  - destruct (all_same_dec (i0 :: rest)) as [Hs|Hd].
    + rewrite (joined_index_all_same _ i0 Hs (or_introl eq_refl)).
      symmetry. apply joined_index_all_same.
      * intros a b Ha Hb. apply Hs; eapply Permutation_in;
          try eassumption; now apply Permutation_sym.
      * eapply Permutation_in; [eassumption|now left].
    + apply ascending_ext.
      * now apply joined_index_ascending.
      * apply joined_index_ascending; [assumption|].
        intros Hs. apply Hd. intros a b Ha Hb.
        apply Hs; eapply Permutation_in; eassumption.
      * intros z. rewrite !In_joined_index by assumption.
        split; intros (i & Hi & Hz); exists i; split; try assumption;
          eapply Permutation_in; try eassumption.
        now apply Permutation_sym.
Qed.

(** ** Stage B *)

Lemma mapM_Ok_map {A B} (f : A -> result B) (g : A -> B) l :
  (forall a, In a l -> f a = Ok (g a)) -> mapM f l = Ok (map g l).
Proof.
  induction l as [|a l IH]; simpl; intros H; [reflexivity|].
  rewrite (H a (or_introl eq_refl)). simpl.
  rewrite IH by (intros; apply H; now right). reflexivity.
Qed.

Lemma mapM_map {A A' B} (f : A' -> result B) (h : A -> A') l :
  mapM f (map h l) = mapM (fun a => f (h a)) l.
Proof.
  induction l as [|a l IH]; simpl; [reflexivity|]. now rewrite IH.
Qed.

Lemma assoc_Some_names {V} k (l : list (string * V)) :
  In k (names l) -> exists v, assoc k l = Some v.
Proof.
  induction l as [|[k0 v0] l IH]; simpl; [easy|].
  destruct (String.eqb_spec k k0) as [->|Hne]; [eauto|].
  intros [H|H]; [congruence|now apply IH].
Qed.

Lemma mem_In k l : In k l -> mem k l = true.
Proof.
  unfold mem. intros H. apply existsb_exists. exists k.
  split; [assumption|apply String.eqb_refl].
Qed.

Lemma assoc_reindex_ds Y X ds k :
  assoc k (vars (reindex_ds Y X ds))
  = option_map (fun a => reindex (ys ds) (xs ds) a Y X) (assoc k (vars ds)).
Proof.
  unfold reindex_ds. simpl. induction (vars ds) as [|[k0 v0] l IH]; simpl;
    [reflexivity|].
  destruct (String.eqb k k0); [reflexivity|apply IH].
Qed.

Lemma getvar_reindex_ds Y X ds k :
  In k (names (vars ds)) ->
  getvar k (reindex_ds Y X ds)
  = Ok (reindex (ys ds) (xs ds) (var_of k ds) Y X).
Proof.
  intros Hin. unfold getvar, var_of. rewrite assoc_reindex_ds.
  destruct (assoc_Some_names _ _ Hin) as [v ->]. reflexivity.
Qed.

(** What [concat] returns on datasets that all have the variables of
    the first one. *)
Lemma concat_same_names first rest dim :
  Forall (same_names first) rest ->
  concat (first :: rest) dim
  = if (List.length dim =? S (List.length rest))%nat
    then Ok (mkUnified dim
               (joined_index (map ys (first :: rest)))
               (joined_index (map xs (first :: rest)))
               (map (stacked_on (joined_index (map ys (first :: rest)))
                                (joined_index (map xs (first :: rest)))
                                (first :: rest))
                    (names (vars first))))
    else Raise ValueError.
Proof.
  intros Hn. unfold concat.
  set (dss := first :: rest).
  assert (Hall : Forall (same_names first) dss).
  { constructor; [reflexivity|assumption]. }
  replace (forallb _ rest) with true.
  2:{ symmetry. apply forallb_forall. intros ds Hds.
      rewrite Forall_forall in Hn. rewrite (Hn ds Hds).
      apply forallb_forall. intros k Hk. now apply mem_In. }
  simpl negb. cbv iota.
  rewrite (mapM_Ok_map _
             (stacked_on (joined_index (map ys dss))
                         (joined_index (map xs dss)) dss)).
  - reflexivity.
  - intros k Hk. unfold align. rewrite mapM_map.
    rewrite (mapM_Ok_map _
               (fun ds => reindex (ys ds) (xs ds) (var_of k ds)
                                  (joined_index (map ys dss))
                                  (joined_index (map xs dss)))).
    + reflexivity.
    + intros ds Hds. apply getvar_reindex_ds.
      rewrite Forall_forall in Hall. now rewrite (Hall ds Hds).
Qed.

Lemma merged_bands_names g4 g5 :
  names (vars (merged_bands g4 g5)) = ["B4"; "B5"].
Proof. reflexivity. Qed.

Lemma load_all_names open_rasterio df :
  Forall (fun ds => names (vars ds) = ["B4"; "B5"])
         (fst (load_all open_rasterio df)).
Proof.
  induction df as [|row df IH]; simpl; [constructor|].
  destruct (load_all open_rasterio df) as [dss log]. simpl in IH.
  destruct (create_multiband_dataset open_rasterio row default_bands)
    as [ds|e] eqn:E; simpl; [|assumption].
  constructor; [|assumption].
  apply create_multiband_default_inv in E
    as (u4 & u5 & g4 & g5 & _ & _ & _ & _ & ->).
  apply merged_bands_names.
Qed.

Lemma load_all_skips open_rasterio df row e :
  In row df ->
  create_multiband_dataset open_rasterio row default_bands = Raise e ->
  (List.length (fst (load_all open_rasterio df)) < List.length df)%nat /\
  In (Skipped e) (snd (load_all open_rasterio df)).
Proof.
  induction df as [|r df IH]; simpl; [easy|].
  intros Hin He.
  pose proof (load_all_length open_rasterio df) as Hle.
  destruct (load_all open_rasterio df) as [dss log]. simpl in *.
  destruct Hin as [->|Hin].
  - rewrite He. simpl. split; [lia|]. right. now left.
  - destruct (IH Hin He) as [Hlt Hlog].
    destruct (create_multiband_dataset open_rasterio r default_bands);
      simpl; split; try lia; right; [|right]; assumption.
Qed.

Lemma concat_length_mismatch dss dim :
  Forall (fun ds => names (vars ds) = ["B4"; "B5"]) dss ->
  List.length dim <> List.length dss ->
  concat dss dim = Raise ValueError.
Proof.
  intros Hn Hlen. destruct dss as [|first rest]; [reflexivity|].
  inversion Hn as [|? ? Hf Hr]; subst.
  rewrite concat_same_names.
  - simpl in Hlen. apply Nat.eqb_neq in Hlen. now rewrite Hlen.
  - eapply Forall_impl; [|exact Hr]. intros ds Hds.
    unfold same_names. congruence.
Qed.

(** C2, where the code departs from it.  As soon as one item of the table
    fails to load, the loop skips it and records the error, but [concat]
    is still given one date per row of the table: the lengths disagree and
    the call raises ValueError instead of returning a shorter time axis. *)
Theorem C2_skipped_item_makes_concat_raise :
  forall open_rasterio df row e,
    (forall u g, open_rasterio u = Ok g -> wf_grid g = true) ->
    In row df ->
    create_multiband_dataset open_rasterio row default_bands = Raise e ->
    fst (unify open_rasterio df) = Raise ValueError /\
    In (Skipped e) (snd (unify open_rasterio df)).
Proof.
  intros open_rasterio df row e _ Hin He.
  destruct (load_all_skips open_rasterio df row e Hin He) as [Hlt Hlog].
  pose proof (load_all_names open_rasterio df) as Hn.
  unfold unify. destruct (load_all open_rasterio df) as [dss log].
  simpl in *. split; [|assumption].
  apply concat_length_mismatch; [assumption|].
  rewrite length_map. lia.
Qed.

Lemma C2_skipped_item_makes_concat_raise_witness :
  unify ex_store ex_df3
  = (Raise ValueError,
     [Loading 5%Z; Loading 3%Z; Skipped RasterioIOError; Loading 2%Z]) /\
  List.length (fst (load_all ex_store ex_df3)) = 2%nat.
Proof.
  pose proof (C2_skipped_item_makes_concat_raise ex_store ex_df3
                (ex_row "c" 3%Z) RasterioIOError ex_store_wf
                (or_intror (or_introl eq_refl)) eq_refl) as [H _].
  split; [|reflexivity].
  rewrite (surjective_pairing (unify ex_store ex_df3)), H. reflexivity.
Defined.

(** ** Reindexing *)

Lemma get_loc_Some z idx i :
  get_loc z idx = Some i -> (i < List.length idx)%nat /\ nth i idx 0%Z = z.
Proof.
  revert i. induction idx as [|h t IH]; simpl; intros i; [discriminate|].
  destruct (Z.eqb_spec z h) as [->|Hne].
  - intros H. injection H as <-. split; [lia|reflexivity].
  - destruct (get_loc z t) as [i'|]; simpl; [|discriminate].
    intros H. injection H as <-. destruct (IH i' eq_refl). split; [lia|auto].
Qed.

Lemma get_loc_In z idx : In z idx -> exists i, get_loc z idx = Some i.
Proof.
  induction idx as [|h t IH]; simpl; [easy|].
  destruct (Z.eqb_spec z h) as [->|Hne]; [eauto|].
  intros [H|H]; [congruence|].
  destruct (IH H) as [i ->]. simpl. eauto.
Qed.

Lemma get_loc_None z idx : ~ In z idx -> get_loc z idx = None.
Proof.
  intros H. destruct (get_loc z idx) as [i|] eqn:E; [|reflexivity].
  apply get_loc_Some in E as [Hi <-]. exfalso. apply H. now apply nth_In.
Qed.



Lemma nth_map_in {A B} (f : A -> B) l i d d' :
  (i < List.length l)%nat -> nth i (map f l) d' = f (nth i l d).
Proof.
  intros H. rewrite (nth_indep _ d' (f d)) by now rewrite length_map.
  apply map_nth.
Qed.

(** A cell of a reindexed array: the old value where the old axes have
    both labels, NaN elsewhere. *)
Lemma lookup_cell_reindex oy ox d Y X y x :
  In y Y -> In x X ->
  lookup_cell Y X (reindex oy ox d Y X) y x
  = Some (match lookup_cell oy ox d y x with
          | Some c => c
          | None => NaN
          end).
Proof.
  intros Hy Hx. unfold lookup_cell at 1.
  destruct (get_loc_In _ _ Hy) as [i Ei].
  destruct (get_loc_In _ _ Hx) as [j Ej]. rewrite Ei, Ej.
  apply get_loc_Some in Ei as [Hi Eyi]. apply get_loc_Some in Ej as [Hj Exj].
  unfold cell_at, reindex.
  rewrite (nth_map_in _ Y i 0%Z) by assumption.
  rewrite (nth_map_in _ X j 0%Z) by assumption.
  now rewrite Eyi, Exj.
Qed.


Lemma assoc_Some_In_names {V} k (l : list (string * V)) v :
  assoc k l = Some v -> In k (names l).
Proof.
  intros H. apply assoc_In in H. unfold names.
  apply in_map_iff. now exists (k, v).
Qed.

Lemma wf_dataset_nonempty ds :
  wf_dataset ds = true -> ys ds <> [] /\ xs ds <> [].
Proof.
  unfold wf_dataset. intros H.
  repeat (apply andb_prop in H as [H ?]).
  split; intros E; rewrite E in *; discriminate.
Qed.






(** ** Unification and the order of the input *)

Lemma load_all_all_ok open_rasterio df :
  (forall row, In row df ->
     exists ds,
       create_multiband_dataset open_rasterio row default_bands = Ok ds) ->
  fst (load_all open_rasterio df) = map (loaded open_rasterio) df.
Proof.
  induction df as [|row df IH]; simpl; intros H; [reflexivity|].
  destruct (load_all open_rasterio df) as [dss log]. simpl in IH.
  unfold loaded at 1.
  destruct (H row (or_introl eq_refl)) as [ds ->]. simpl.
  f_equal. apply IH. intros; apply H; now right.
Qed.

Lemma length_nonzero_nonempty (idx : Index) :
  (List.length idx =? 0)%nat = false -> idx <> [].
Proof. destruct idx; [discriminate|discriminate]. Qed.

Lemma wf_grid_nonempty g :
  wf_grid g = true -> gy g <> [] /\ gx g <> [].
Proof.
  unfold wf_grid. intros H. repeat (apply andb_prop in H as [H ?]).
  split; apply length_nonzero_nonempty; now apply negb_true_iff.
Qed.

Lemma joined_index_nonempty idxs i :
  Forall (fun i => i <> []) idxs -> In i idxs -> joined_index idxs <> [].
Proof.
  intros Hne Hin E.
  assert (Hi : i <> []) by (rewrite Forall_forall in Hne; auto).
  destruct i as [|z i]; [congruence|].
  assert (Hz : In z (joined_index idxs)).
  { apply In_joined_index; [assumption|]. exists (z :: i).
    split; [assumption|now left]. }
  rewrite E in Hz. destruct Hz.
Qed.

Lemma loaded_axes_nonempty open_rasterio row ds :
  (forall u g, open_rasterio u = Ok g -> wf_grid g = true) ->
  create_multiband_dataset open_rasterio row default_bands = Ok ds ->
  ys ds <> [] /\ xs ds <> [] /\ names (vars ds) = ["B4"; "B5"].
Proof.
  intros Hwf H.
  apply create_multiband_default_inv in H
    as (u4 & u5 & g4 & g5 & _ & _ & O4 & O5 & ->).
  destruct (wf_grid_nonempty _ (Hwf _ _ O4)) as [Y4 X4].
  destruct (wf_grid_nonempty _ (Hwf _ _ O5)) as [Y5 X5].
  split; [|split; [|reflexivity]]; cbn [merged_bands ys xs].
  - apply (joined_index_nonempty _ (gy g4)); [|now left].
    repeat constructor; assumption.
  - apply (joined_index_nonempty _ (gx g4)); [|now left].
    repeat constructor; assumption.
Qed.

Lemma map_seq_nth {A B} (F : nat -> B) (G : A -> B) (l : list A) d :
  (forall t, (t < List.length l)%nat -> F t = G (nth t l d)) ->
  map F (seq 0 (List.length l)) = map G l.
Proof.
  revert F. induction l as [|a l IH]; intros F H; [reflexivity|].
  cbn [Datatypes.length seq map]. rewrite (H 0%nat) by (simpl; lia). simpl nth.
  f_equal. rewrite <- seq_shift, map_map.
  apply IH. intros t Ht. rewrite (H (S t)) by (simpl; lia). reflexivity.
Qed.

(** The slices of a stacked dataset, row by row. *)
Lemma slices_stacked (L : Row -> Dataset) df Y X ns :
  slices (mkUnified (map date df) Y X
                    (map (stacked_on Y X (map L df)) ns))
  = map (fun row =>
           (date row,
            map (fun k => (k, reindex (ys (L row)) (xs (L row))
                                      (var_of k (L row)) Y X)) ns))
        df.
Proof.
  unfold slices, slice_at. cbn [time uvars]. rewrite length_map.
  apply (map_seq_nth _ _ _ (mkRow "" 0%Z [])).
  intros t Ht. f_equal.
  - now apply nth_map_in.
  - rewrite map_map. apply map_ext. intros k. unfold stacked_on. cbn [fst snd].
    f_equal. rewrite map_map.
    now rewrite (nth_map_in _ df t (mkRow "" 0%Z [])).
Qed.

Lemma unify_all_ok open_rasterio df :
  (forall u g, open_rasterio u = Ok g -> wf_grid g = true) ->
  (forall row, In row df ->
     exists ds,
       create_multiband_dataset open_rasterio row default_bands = Ok ds) ->
  df <> [] ->
  let dss := map (loaded open_rasterio) df in
  fst (unify open_rasterio df)
  = Ok (mkUnified (map date df)
          (joined_index (map ys dss)) (joined_index (map xs dss))
          (map (stacked_on (joined_index (map ys dss))
                           (joined_index (map xs dss)) dss)
               ["B4"; "B5"])) /\
  Forall (fun i => i <> []) (map ys dss) /\
  Forall (fun i => i <> []) (map xs dss).
Proof.
  intros Hwf Hok Hne dss.
  assert (Hrows : Forall (fun ds => ys ds <> [] /\ xs ds <> [] /\
                                    names (vars ds) = ["B4"; "B5"]) dss).
  { apply Forall_map, Forall_forall. intros row Hrow.
    destruct (Hok row Hrow) as [ds Hds]. unfold loaded. rewrite Hds.
    eapply loaded_axes_nonempty; eassumption. }
  split; [|split].
  - unfold unify.
    pose proof (load_all_all_ok open_rasterio df Hok) as Hload.
    destruct (load_all open_rasterio df) as [dss' log]. simpl in Hload.
    subst dss'. cbn [fst]. fold dss.
    destruct df as [|row df]; [congruence|].
    subst dss. cbn [map] in *. inversion Hrows as [|? ? (_ & _ & Hn) Hr]; subst.
    rewrite concat_same_names.
    + cbn [map Datatypes.length]. rewrite !length_map, Nat.eqb_refl.
      rewrite Hn. reflexivity.
    + eapply Forall_impl; [|exact Hr]. intros ds (_ & _ & Hds).
      unfold same_names. congruence.
  - apply Forall_map. eapply Forall_impl; [|exact Hrows]. now intros ds (? & _).
  - apply Forall_map. eapply Forall_impl; [|exact Hrows].
    now intros ds (_ & ? & _).
Qed.

(** C3, as the code has it.  For rasters at least two pixels high and
    two pixels wide (so that [squeeze()] removes the band dimension only),
    the time axis lists the acquisition dates in the order of the input,
    it is not sorted.  Permuting the input leaves the spatial axes
    unchanged and permutes the time slices together with their dates. *)
Theorem C3_unification_follows_input_order :
  forall open_rasterio df df',
    (forall u g, open_rasterio u = Ok g -> grid_2d g = true) ->
    (forall row, In row df ->
       exists ds,
         create_multiband_dataset open_rasterio row default_bands = Ok ds) ->
    df <> [] ->
    Permutation df df' ->
    exists u u',
      fst (unify open_rasterio df) = Ok u /\
      fst (unify open_rasterio df') = Ok u' /\
      time u = map date df /\ time u' = map date df' /\
      uy u' = uy u /\ ux u' = ux u /\
      Permutation (slices u) (slices u').
Proof.
  intros open_rasterio df df' H2d Hok Hne Hperm.
  pose proof (store_2d_wf open_rasterio H2d) as Hwf.
  assert (Hok' : forall row, In row df' ->
             exists ds,
               create_multiband_dataset open_rasterio row default_bands
               = Ok ds).
  { intros row Hrow. apply Hok. eapply Permutation_in;
      [apply Permutation_sym|]; eassumption. }
  assert (Hne' : df' <> []).
  { intros ->. apply Permutation_sym, Permutation_nil in Hperm. congruence. }
  destruct (unify_all_ok open_rasterio df Hwf Hok Hne) as (Hu & Hny & Hnx).
  destruct (unify_all_ok open_rasterio df' Hwf Hok' Hne') as (Hu' & _ & _).
  cbv zeta in *.
  set (L := loaded open_rasterio) in *.
  assert (HY : joined_index (map ys (map L df'))
               = joined_index (map ys (map L df))).
  { symmetry. apply joined_index_perm; [assumption|].
    now repeat apply Permutation_map. }
  assert (HX : joined_index (map xs (map L df'))
               = joined_index (map xs (map L df))).
  { symmetry. apply joined_index_perm; [assumption|].
    now repeat apply Permutation_map. }
  rewrite HY, HX in Hu'.
  eexists. eexists. split; [exact Hu|]. split; [exact Hu'|].
  cbn [time uy ux]. repeat split.
  rewrite !slices_stacked. now apply Permutation_map.
Qed.

Lemma ex_store_loads row :
  In row [ex_row "a" 5%Z; ex_row "b" 2%Z] ->
  exists ds, create_multiband_dataset ex_store row default_bands = Ok ds.
Proof.
  intros [<-|[<-|[]]]; eexists; reflexivity.
Qed.

Lemma C3_unification_follows_input_order_witness :
  exists u u',
    fst (unify ex_store [ex_row "a" 5%Z; ex_row "b" 2%Z]) = Ok u /\
    fst (unify ex_store [ex_row "b" 2%Z; ex_row "a" 5%Z]) = Ok u' /\
    Permutation (slices u) (slices u').
Proof.
  destruct (C3_unification_follows_input_order ex_store
              [ex_row "a" 5%Z; ex_row "b" 2%Z]
              [ex_row "b" 2%Z; ex_row "a" 5%Z]
              ex_store_2d ex_store_loads)
    as (u & u' & Hu & Hu' & _ & _ & _ & _ & Hp).
  - discriminate.
  - apply perm_swap.
  - exists u, u'. auto.
Defined.

(** C3, as claimed, fails: the time axis is in input order, and the input
    in another order gives another dataset. *)
Lemma C3_time_axis_not_sorted :
  exists u u',
    fst (unify ex_store [ex_row "a" 5%Z; ex_row "b" 2%Z]) = Ok u /\
    fst (unify ex_store [ex_row "b" 2%Z; ex_row "a" 5%Z]) = Ok u' /\
    time u = [5; 2]%Z /\ ~ Sorted Z.le (time u) /\
    time u' = [2; 5]%Z /\ u <> u'.
Proof.
  eexists. eexists. split; [reflexivity|]. split; [reflexivity|].
  split; [reflexivity|]. split; [|split; [reflexivity|discriminate]].
  cbn [time]. intros H. inversion H as [|? ? _ Hd]; subst.
  inversion Hd as [|? ? Hle]; subst. now apply Hle.
Qed.

(** ** Window selection *)

Lemma monotonic_leb_cons h t :
  monotonic Z.leb (h :: t) = true ->
  monotonic Z.leb t = true /\ Forall (fun z => (h <= z)%Z) t.
Proof.
  revert h. induction t as [|b t IH]; intros h H.
  - split; [reflexivity|constructor].
  - cbn [monotonic] in H. apply andb_prop in H as [Hhb Ht].
    apply Z.leb_le in Hhb. split; [exact Ht|].
    destruct (IH b Ht) as [_ Hall]. constructor; [assumption|].
    eapply Forall_impl; [|exact Hall]. intros z Hz. cbv beta in Hz. lia.
Qed.

Lemma filter_none p (idx : Index) :
  Forall (fun z => p z = false) idx -> filter p idx = [].
Proof.
  induction 1 as [|z l Hz _ IH]; simpl; [reflexivity|]. now rewrite Hz.
Qed.

(** On an ascending index the positional slice is the set of labels
    between the two bounds, both included. *)
Lemma pyslice_ascending idx lo hi :
  monotonic Z.leb idx = true ->
  pyslice (count (fun z => z <? lo)%Z idx) (count (fun z => z <=? hi)%Z idx)
          idx
  = filter (fun z => (lo <=? z) && (z <=? hi))%Z idx.
Proof.
  unfold pyslice. induction idx as [|h t IH]; intros Hm; [reflexivity|].
  apply monotonic_leb_cons in Hm as [Hm Hall]. specialize (IH Hm).
  unfold count in *. cbn [filter].
  destruct (Z.ltb_spec h lo) as [Hlo|Hlo];
    destruct (Z.leb_spec h hi) as [Hhi|Hhi];
    destruct (Z.leb_spec lo h) as [Hlo'|Hlo']; try lia;
    cbn [andb Datatypes.length].
  - exact IH.
  - assert (Hnone : Forall (fun z => (z <=? hi)%Z = false) t).
    { eapply Forall_impl; [|exact Hall]. intros z Hz.
      cbv beta in Hz. apply Z.leb_gt. lia. }
    rewrite (filter_none _ _ Hnone). cbn [Datatypes.length Nat.sub firstn].
    symmetry. apply filter_none.
    eapply Forall_impl; [|exact Hall]. intros z Hz.
    cbv beta in Hz. apply andb_false_iff. right. apply Z.leb_gt. lia.
  - assert (Hnone : Forall (fun z => (z <? lo)%Z = false) t).
    { eapply Forall_impl; [|exact Hall]. intros z Hz.
      cbv beta in Hz. apply Z.ltb_ge. lia. }
    rewrite (filter_none _ _ Hnone) in *.
    cbn [Datatypes.length Nat.sub skipn firstn] in *.
    rewrite Nat.sub_0_r in IH. f_equal. exact IH.
  - assert (Hnone : Forall (fun z => (z <=? hi)%Z = false) t).
    { eapply Forall_impl; [|exact Hall]. intros z Hz.
      cbv beta in Hz. apply Z.leb_gt. lia. }
    rewrite (filter_none _ _ Hnone). cbn [Datatypes.length Nat.sub firstn].
    symmetry. apply filter_none.
    eapply Forall_impl; [|exact Hall]. intros z Hz.
    cbv beta in Hz. apply andb_false_iff. right. apply Z.leb_gt. lia.
Qed.







Lemma sel_window_ascending a xcen ycen buf :
  monotonic Z.leb (da_x a) = true -> monotonic Z.leb (da_y a) = true ->
  sel_window a xcen ycen buf
  = Ok (let x0 := count (fun z => z <? xcen - buf)%Z (da_x a) in
        let x1 := count (fun z => z <=? xcen + buf)%Z (da_x a) in
        let y0 := count (fun z => z <? ycen - buf)%Z (da_y a) in
        let y1 := count (fun z => z <=? ycen + buf)%Z (da_y a) in
        mkDataArray (da_time a) (pyslice y0 y1 (da_y a))
          (pyslice x0 x1 (da_x a))
          (map (fun img => map (pyslice x0 x1) (pyslice y0 y1 img))
               (da_values a))).
Proof.
  intros Hx Hy. unfold sel_window, slice_locs. rewrite Hx, Hy. reflexivity.
Qed.




(** ** Well-formedness is preserved along the pipeline *)

Lemma ascending_monotonic idx : ascending idx -> monotonic Z.ltb idx = true.
Proof.
  unfold ascending. induction idx as [|a idx IH]; intros H; [reflexivity|].
  inversion H as [|? ? Hs Hall]; subst.
  destruct idx as [|b idx]; [reflexivity|].
  change (monotonic Z.ltb (a :: b :: idx))
    with ((a <? b)%Z && monotonic Z.ltb (b :: idx)).
  rewrite (IH Hs), andb_true_r.
  inversion Hall; subst. now apply Z.ltb_lt.
Qed.

Lemma joined_pair_strictly_monotonic a b :
  a <> [] -> b <> [] ->
  strictly_monotonic a = true -> strictly_monotonic b = true ->
  strictly_monotonic (joined_index [a; b]) = true.
Proof.
  intros Ha Hb Ma Mb.
  rewrite joined_index_spec by (repeat constructor; assumption).
  destruct (forallb (index_eqb a) [b]); [assumption|].
  unfold strictly_monotonic.
  now rewrite (ascending_monotonic _ (sort_unique_ascending _)).
Qed.

Lemma rectangular_reindex oy ox d Y X :
  rectangular (List.length Y) (List.length X) (reindex oy ox d Y X) = true.
Proof.
  unfold rectangular, reindex. rewrite length_map, Nat.eqb_refl. cbn [andb].
  apply forallb_forall. intros r Hr.
  apply in_map_iff in Hr as (y & <- & _).
  now rewrite length_map, Nat.eqb_refl.
Qed.

(** Stage A turns well-formed rasters into a well-formed dataset. *)
Lemma merged_bands_wf g4 g5 :
  wf_grid g4 = true -> wf_grid g5 = true ->
  wf_dataset (merged_bands g4 g5) = true.
Proof.
  intros W4 W5.
  destruct (wf_grid_nonempty _ W4) as [Y4 X4].
  destruct (wf_grid_nonempty _ W5) as [Y5 X5].
  unfold wf_grid in W4, W5.
  repeat (apply andb_prop in W4 as [W4 ?]).
  repeat (apply andb_prop in W5 as [W5 ?]).
  unfold wf_dataset, merged_bands. cbn [ys xs vars forallb snd].
  rewrite !rectangular_reindex.
  rewrite !joined_pair_strictly_monotonic by assumption.
  rewrite !length_zero_false; [reflexivity| |].
  - apply (joined_index_nonempty _ (gx g4)); [|now left].
    repeat constructor; assumption.
  - apply (joined_index_nonempty _ (gy g4)); [|now left].
    repeat constructor; assumption.
Qed.

(** Stage B delivers a dataset of the shape its axes give. *)
Lemma concat_wf_unified first rest dim u :
  Forall (same_names first) rest ->
  concat (first :: rest) dim = Ok u ->
  wf_unified u = true.
Proof.
  intros Hn H. rewrite (concat_same_names _ _ _ Hn) in H.
  destruct (Nat.eqb_spec (List.length dim) (S (List.length rest)))
    as [Hlen|]; [|discriminate].
  injection H as <-. unfold wf_unified. cbn [time uy ux uvars].
  apply forallb_forall. intros kv Hkv.
  apply in_map_iff in Hkv as (k & <- & _).
  unfold stacked_on, shape_ok. cbn [snd].
  rewrite length_map. cbn [Datatypes.length].
  rewrite Hlen, Nat.eqb_refl. cbn [andb].
  apply forallb_forall. intros sl Hsl.
  apply in_map_iff in Hsl as (ds & <- & _).
  apply rectangular_reindex.
Qed.

(** * Further properties of the notebook's code *)

(** ** [make_google_archive] *)

Lemma mapM_Forall2 {A B} (f : A -> result B) l bs :
  mapM f l = Ok bs <-> Forall2 (fun a b => f a = Ok b) l bs.
Proof.
  revert bs. induction l as [|a l IH]; intros bs; simpl.
  - split; intros H; [injection H as <-; constructor|now inversion H].
  - split.
    + intros H. apply bind_Ok in H as (b & Hb & H).
      apply bind_Ok in H as (bs' & Hbs & H). injection H as <-.
      constructor; [assumption|now apply IH].
    + intros H. inversion H as [|? b ? bs' Hb Hbs]; subst.
      rewrite Hb. simpl. apply IH in Hbs. rewrite Hbs. reflexivity.
Qed.

Lemma assoc_set_same {V} k (v : V) l : assoc k (assoc_set k v l) = Some v.
Proof.
  induction l as [|[k0 v0] l IH]; simpl.
  - now rewrite String.eqb_refl.
  - destruct (String.eqb k k0) eqn:E; simpl.
    + now rewrite String.eqb_refl.
    + now rewrite E.
Qed.

Lemma assoc_set_other {V} k k' (v : V) l :
  k' <> k -> assoc k' (assoc_set k v l) = assoc k' l.
Proof.
  intros Hne. induction l as [|[k0 v0] l IH]; simpl.
  - destruct (String.eqb_spec k' k); [congruence|reflexivity].
  - destruct (String.eqb_spec k k0) as [->|Hk]; simpl.
    + destruct (String.eqb_spec k' k0); [congruence|reflexivity].
    + destruct (String.eqb_spec k' k0); [reflexivity|assumption].
Qed.

(** The columns of every row after the loop over [bands]. *)
Lemma fold_set_column_assoc baseurl bands : forall df row band,
  In row (fold_left (fun d b => set_column baseurl b d) bands df) ->
  exists row0,
    In row0 df /\ product_id row = product_id row0 /\
    date row = date row0 /\
    assoc band (columns row)
    = if in_dec string_dec band bands
      then Some (band_url baseurl (product_id row0) band)
      else assoc band (columns row0).
Proof.
  induction bands as [|b bands IH]; intros df row band Hin.
  - exists row. simpl in *. auto.
  - cbn [fold_left] in Hin.
    destruct (IH _ _ band Hin) as (row1 & Hin1 & Hid & Hd & Hassoc).
    unfold set_column in Hin1.
    apply in_map_iff in Hin1 as (row0 & <- & Hin0).
    exists row0. cbn [product_id date columns] in *.
    repeat split; try assumption.
    rewrite Hassoc.
    destruct (in_dec string_dec band bands) as [Hb|Hb];
      destruct (in_dec string_dec band (b :: bands)) as [Hb'|Hb'];
      try reflexivity.
    + exfalso. apply Hb'. now right.
    + destruct Hb' as [->|Hb']; [|contradiction].
      apply assoc_set_same.
    + apply assoc_set_other. intros ->. apply Hb'. now left.
Qed.

Lemma combine_snd {A B} (l : list A) (l' : list B) :
  List.length l' = List.length l -> map snd (combine l l') = l'.
Proof.
  revert l'. induction l as [|a l IH]; intros [|b l']; simpl; try easy.
  intros H. f_equal. apply IH. lia.
Qed.

Lemma make_google_archive_dates to_datetime pids bands df :
  make_google_archive to_datetime pids bands = Ok df ->
  map product_id df = pids /\
  Forall2 (fun x d => date_of to_datetime x = Ok d) pids (map date df).
Proof.
  unfold make_google_archive. intros H.
  apply bind_Ok in H as (pid0 & Hp & H).
  apply bind_Ok in H as (f2 & Hf & H).
  rewrite Hp in H. cbn [bind] in H. rewrite Hf in H. cbn [bind] in H.
  apply bind_Ok in H as (dates & Hd & H).
  remember (gcp_prefix ++ slice_1_3 f2 ++ "/0" ++ slice_last2 f2)%string
    as base eqn:Hbase.
  injection H as <-.
  assert (Hlen : List.length dates = List.length pids)
    by now apply mapM_length in Hd.
  match goal with |- context [fold_left ?f bands ?d0] =>
    destruct (fold_set_column base bands d0) as (H1 & H2 & _) end.
  { apply Forall_map. apply Forall_forall. intros x _ k v []. }
  split.
  - rewrite H1, map_map. cbn [product_id].
    change (map (fun x => fst x) (combine pids dates))
      with (map fst (combine pids dates)).
    now apply combine_fst.
  - rewrite H2, map_map. cbn [date].
    change (map (fun x => snd x) (combine pids dates))
      with (map snd (combine pids dates)).
    rewrite combine_snd by assumption.
    now apply mapM_Forall2.
Qed.

(** X1. A catalogue with no entry or a single entry cannot be turned into a
    table: [pids[:-1]] is empty and [pids[0]] raises IndexError. *)
Theorem archive_of_short_catalog_raises :
  forall to_datetime pids,
    (List.length pids <= 1)%nat ->
    archive_of_catalog to_datetime pids = Raise IndexError.
Proof.
  intros to_datetime [|a [|b pids]] H; try reflexivity.
  simpl in H. lia.
Qed.

Lemma archive_of_short_catalog_raises_witness :
  archive_of_catalog to_datetime_yyyymmdd
    ["LC08_L1TP_047027_20130421_20170310_01_T1"]
  = Raise IndexError.
Proof.
  apply archive_of_short_catalog_raises. simpl. lia.
Defined.

(** X2. The table [make_google_archive] returns has one row per
    identifier, in order, dated by the identifier's fourth field.  When no
    band is called [product_id] or [date] (a band of that name would
    overwrite the column), the columns next to [product_id] and [date] are
    exactly the requested bands: a requested band reads back the URL built
    from the base directory and the row's own identifier, and a name that
    is neither [product_id], [date] nor a requested band is a KeyError. *)
Theorem make_google_archive_table :
  forall to_datetime pids bands df,
    ~ In "product_id" bands -> ~ In "date" bands ->
    make_google_archive to_datetime pids bands = Ok df ->
    exists f2,
      index (split "_" (hd "" pids)) 2 = Ok f2 /\
      map product_id df = pids /\
      Forall2 (fun x d => date_of to_datetime x = Ok d) pids (map date df) /\
      forall row band,
        In row df ->
        (In band bands ->
         row_get row band
         = Ok (band_url (gcp_prefix ++ slice_1_3 f2 ++ "/0" ++ slice_last2 f2)
                        (product_id row) band)) /\
        (band <> "product_id" -> band <> "date" -> ~ In band bands ->
         row_get row band = Raise KeyError).
Proof.
  unfold make_google_archive. intros to_datetime pids bands df _ _ H.
  apply bind_Ok in H as (pid0 & Hp & H).
  apply bind_Ok in H as (f2 & Hf & H).
  rewrite Hp in H. cbn [bind] in H. rewrite Hf in H. cbn [bind] in H.
  apply bind_Ok in H as (dates & Hd & H).
  remember (gcp_prefix ++ slice_1_3 f2 ++ "/0" ++ slice_last2 f2)%string
    as base eqn:Hbase.
  injection H as <-.
  assert (Hlen : List.length dates = List.length pids)
    by now apply mapM_length in Hd.
  exists f2. split.
  { destruct pids as [|p pids]; [discriminate|].
    unfold index in Hp. simpl in Hp. injection Hp as ->. exact Hf. }
  match goal with |- context [fold_left ?f bands ?d0] =>
    destruct (fold_set_column base bands d0) as (H1 & H2 & _) end.
  { apply Forall_map. apply Forall_forall. intros x _ k v []. }
  split; [|split].
  - rewrite H1, map_map. cbn [product_id].
    change (map (fun x => fst x) (combine pids dates))
      with (map fst (combine pids dates)).
    now apply combine_fst.
  - rewrite H2, map_map. cbn [date].
    change (map (fun x => snd x) (combine pids dates))
      with (map snd (combine pids dates)).
    rewrite combine_snd by assumption.
    now apply mapM_Forall2.
  - intros row band Hin.
    destruct (fold_set_column_assoc base bands _ row band Hin)
      as (row0 & Hin0 & Hid & _ & Hassoc).
    apply in_map_iff in Hin0 as (xd & <- & _).
    cbn [product_id columns assoc] in *.
    unfold row_get. rewrite Hassoc.
    destruct (in_dec string_dec band bands) as [Hb|Hb].
    + split; [intros _; rewrite Hid, Hbase; reflexivity|contradiction].
    + split; [contradiction|reflexivity].
Qed.

Lemma make_google_archive_table_witness :
  exists df,
    make_google_archive to_datetime_yyyymmdd (removelast ex_catalog)
      ["B4"; "B5"] = Ok df /\
    map product_id df = removelast ex_catalog.
Proof.
  eexists. split; [reflexivity|].
  assert (Hp : ~ In "product_id" ["B4"; "B5"])
    by (intros [H|[H|[]]]; discriminate).
  assert (Hd : ~ In "date" ["B4"; "B5"])
    by (intros [H|[H|[]]]; discriminate).
  destruct (make_google_archive_table to_datetime_yyyymmdd
              (removelast ex_catalog) ["B4"; "B5"] _ Hp Hd eq_refl)
    as (f2 & _ & H & _).
  exact H.
Defined.

Lemma Forall_exists_Forall2 {A B} (R : A -> B -> Prop) l :
  Forall (fun a => exists b, R a b) l -> exists bs, Forall2 R l bs.
Proof.
  induction 1 as [|a l [b Hb] _ [bs Hbs]].
  - exists []. constructor.
  - exists (b :: bs). now constructor.
Qed.

Lemma Forall2_Forall_exists {A B} (R : A -> B -> Prop) l bs :
  Forall2 R l bs -> Forall (fun a => exists b, R a b) l.
Proof. induction 1; constructor; eauto. Qed.

Lemma date_of_field2 to_datetime x d :
  date_of to_datetime x = Ok d -> exists f2, index (split "_" x) 2 = Ok f2.
Proof.
  unfold date_of, index. intros H.
  destruct (nth_error (split "_" x) 3) eqn:E3; [|discriminate].
  destruct (nth_error (split "_" x) 2) eqn:E2; [eauto|].
  apply nth_error_None in E2.
  assert (nth_error (split "_" x) 3 = None) by (apply nth_error_None; lia).
  congruence.
Qed.

(** X3. [make_google_archive] returns a table exactly when the list is not
    empty and every identifier in it, not only the first, has a fourth
    underscore-separated field that [pd.to_datetime] accepts: one malformed
    identifier anywhere leaves no table at all. *)
Theorem make_google_archive_succeeds_iff :
  forall to_datetime pids bands,
    (exists df, make_google_archive to_datetime pids bands = Ok df)
    <-> pids <> [] /\
        Forall (fun x => exists d, date_of to_datetime x = Ok d) pids.
Proof.
  intros to_datetime pids bands. split.
  - intros [df H].
    destruct (make_google_archive_dates _ _ _ _ H) as (Hid & Hd).
    split.
    + intros ->. discriminate H.
    + eapply Forall2_Forall_exists. exact Hd.
  - intros [Hne Hall]. destruct pids as [|p pids]; [congruence|].
    inversion Hall as [|? ? [d Hd] _]; subst.
    destruct (date_of_field2 _ _ _ Hd) as [f2 Hf2].
    apply Forall_exists_Forall2 in Hall as [dates Hdates].
    apply mapM_Forall2 in Hdates.
    unfold make_google_archive. cbn [index nth_error bind].
    rewrite Hf2. cbn [bind].
    unfold date_of in Hdates. rewrite Hdates. cbn [bind]. eauto.
Qed.

Lemma digit_below_100 p1 p2 p3 :
  is_digit p1 = true -> is_digit p2 = true -> is_digit p3 = true ->
  (parse_dec (three p1 p2 p3) < 100)%N -> p1 = "0"%char.
Proof.
  intros H1 H2 H3 Hlt. rewrite parse_dec_three in Hlt.
  apply digit_range in H1, H2, H3.
  assert (E : N_of_ascii p1 = 48%N) by lia.
  rewrite <- (ascii_N_embedding p1), E. reflexivity.
Qed.

(** X4. For an identifier whose path and row are both below 100, every
    URL of the table lies in the directory of the path and row that the
    first identifier encodes. *)
Theorem small_path_row_resolved_exactly :
  forall to_datetime pid0 rest bands p1 p2 p3 r1 r2 r3 df,
    index (split "_" pid0) 2 = Ok (six p1 p2 p3 r1 r2 r3) ->
    forallb is_digit [p1; p2; p3; r1; r2; r3] = true ->
    (parse_dec (three p1 p2 p3) < 100)%N ->
    (parse_dec (three r1 r2 r3) < 100)%N ->
    make_google_archive to_datetime (pid0 :: rest) bands = Ok df ->
    forall row band url,
      In row df -> row_get row band = Ok url ->
      uri_path_row url = Some (three p1 p2 p3, three r1 r2 r3).
Proof.
  intros to_datetime pid0 rest bands p1 p2 p3 r1 r2 r3 df Hf Hd Hp Hr Hdf
         row band url Hin Hget.
  apply make_google_archive_inv in Hdf as (pid0' & f2 & Hp0 & Hf2 & _ & Hall).
  injection Hp0 as <-. rewrite Hf in Hf2. injection Hf2 as <-.
  simpl in Hd. repeat (apply andb_prop in Hd as [? Hd]).
  rewrite (digit_below_100 p1 p2 p3) by assumption.
  rewrite (digit_below_100 r1 r2 r3) by assumption.
  rewrite Forall_forall in Hall. specialize (Hall row Hin).
  unfold row_get in Hget.
  destruct (assoc band (columns row)) eqn:E; [|discriminate].
  injection Hget as <-. apply assoc_In in E. rewrite (Hall _ _ E).
  now apply uri_path_row_band_url.
Qed.

Lemma small_path_row_resolved_exactly_witness :
  uri_path_row
    (band_url (gcp_prefix ++ "47/027")%string
              "LC08_L1TP_047027_20130421_20170310_01_T1" "B5")
  = Some ("047", "027").
Proof.
  exact (small_path_row_resolved_exactly to_datetime_yyyymmdd
           "LC08_L1TP_047027_20130421_20170310_01_T1" [] ["B5"]
           "0" "4" "7" "0" "2" "7" _ eq_refl eq_refl eq_refl eq_refl eq_refl
           _ "B5" _ (or_introl eq_refl) eq_refl).
Defined.

Lemma split_no_sep sep a : no_sep sep a = true -> split sep a = [a].
Proof.
  induction a as [|c a IH]; simpl; intros H; [reflexivity|].
  apply andb_prop in H as [Hc Ha]. apply negb_true_iff in Hc.
  now rewrite Hc, (IH Ha).
Qed.

Lemma no_sep_app sep a b :
  no_sep sep (a ++ b) = no_sep sep a && no_sep sep b.
Proof.
  induction a as [|c a IH]; simpl; [reflexivity|].
  now rewrite IH, andb_assoc.
Qed.

Lemma no_sep_substring sep s : forall n m,
  no_sep sep s = true -> no_sep sep (substring n m s) = true.
Proof.
  induction s as [|c s IH]; intros n m H.
  - destruct n, m; reflexivity.
  - simpl in H. apply andb_prop in H as [Hc Hs].
    destruct n as [|n]; [destruct m as [|m]|]; simpl.
    + reflexivity.
    + now rewrite Hc, IH.
    + now apply IH.
Qed.

(** X5. An archive URL can be taken apart again: for identifiers and band
    names free of slashes, the URL of a row has ten segments, of which the
    ninth is the row's own identifier and the tenth the file
    [<identifier>_<band>.TIF]. *)
Theorem archive_url_names_its_item :
  forall to_datetime pids bands df f2,
    make_google_archive to_datetime pids bands = Ok df ->
    index (split "_" (hd "" pids)) 2 = Ok f2 ->
    no_sep "/" f2 = true ->
    forall row band url,
      In row df -> row_get row band = Ok url ->
      no_sep "/" (product_id row) = true -> no_sep "/" band = true ->
      List.length (split "/" url) = 10%nat /\
      uri_item url
      = Some (product_id row, (product_id row ++ "_" ++ band ++ ".TIF")%string).
Proof.
  intros to_datetime pids bands df f2 Hdf Hf2 Hn2 row band url Hin Hget
         Hnp Hnb.
  apply make_google_archive_inv in Hdf as (pid0 & f2' & Hp0 & Hf2' & _ & Hall).
  assert (f2' = f2).
  { destruct pids as [|p pids]; [discriminate|].
    unfold index in Hp0. simpl in Hp0. injection Hp0 as <-.
    simpl in Hf2. congruence. }
  subst f2'.
  rewrite Forall_forall in Hall. specialize (Hall row Hin).
  unfold row_get in Hget.
  destruct (assoc band (columns row)) eqn:E; [|discriminate].
  injection Hget as <-. apply assoc_In in E. rewrite (Hall _ _ E).
  set (P := slice_1_3 f2). set (R := slice_last2 f2).
  set (x := product_id row).
  set (file := (x ++ "_" ++ band ++ ".TIF")%string).
  assert (HP : no_sep "/" P = true) by now apply no_sep_substring.
  assert (HR : no_sep "/" R = true) by now apply no_sep_substring.
  assert (Hfile : no_sep "/" file = true).
  { unfold file, x. rewrite !no_sep_app, Hnp, Hnb. reflexivity. }
  assert (Hsplit : split "/" (band_url (gcp_prefix ++ P ++ "/0" ++ R) x band)
                   = ["https:"; ""; "storage.googleapis.com";
                      "gcp-public-data-landsat"; "LC08"; "01";
                      String "0" P; String "0" R; x; file]).
  { unfold band_url. rewrite !app_assoc_s. fold file.
    change (gcp_prefix ++ P ++ "/0" ++ R ++ "/" ++ x ++ "/" ++ file)%string
      with ("https:" ++ String "/" ("" ++ String "/"
             ("storage.googleapis.com" ++ String "/"
               ("gcp-public-data-landsat" ++ String "/" ("LC08" ++
                 String "/" ("01" ++ String "/" (String "0" P ++ String "/"
                   (String "0" R ++ String "/"
                      (x ++ String "/" file)))))))))%string.
    rewrite !split_app; try reflexivity; try assumption.
    now rewrite split_no_sep. }
  unfold uri_item. rewrite Hsplit. split; reflexivity.
Qed.

Lemma archive_url_names_its_item_witness :
  uri_item
    (band_url (gcp_prefix ++ "47/027")%string
              "LC08_L1TP_047027_20130421_20170310_01_T1" "B5")
  = Some ("LC08_L1TP_047027_20130421_20170310_01_T1",
          "LC08_L1TP_047027_20130421_20170310_01_T1_B5.TIF").
Proof.
  exact (proj2 (archive_url_names_its_item to_datetime_yyyymmdd
           ["LC08_L1TP_047027_20130421_20170310_01_T1"] ["B5"] _ "047027"
           eq_refl eq_refl eq_refl _ "B5" _ (or_introl eq_refl) eq_refl
           eq_refl eq_refl)).
Defined.

(** ** The footprint cell *)

Lemma list_pair_ind {A} (P : list A -> Prop) :
  P [] -> (forall a, P [a]) -> (forall a b l, P l -> P (a :: b :: l)) ->
  forall l, P l.
Proof.
  intros H0 H1 H2 l.
  assert (H : P l /\ forall a, P (a :: l)); [|exact (proj1 H)].
  induction l as [|b l [IH1 IH2]]; split; auto.
Qed.

Lemma nth_error_evens {A} (l : list A) : forall i,
  nth_error (evens l) i = nth_error l (2 * i).
Proof.
  induction l as [|a|a b l IH] using list_pair_ind; intros i.
  - destruct i; reflexivity.
  - destruct i as [|i]; [reflexivity|].
    replace (2 * S i)%nat with (S (S (2 * i))) by lia.
    simpl. now destruct i.
  - destruct i as [|i]; [reflexivity|].
    cbn [evens nth_error].
    replace (2 * S i)%nat with (S (S (2 * i))) by lia. cbn [nth_error].
    apply IH.
Qed.

Lemma nth_error_odds {A} (l : list A) i :
  nth_error (odds l) i = nth_error l (2 * i + 1).
Proof.
  unfold odds. rewrite nth_error_evens.
  replace (2 * i + 1)%nat with (S (2 * i)) by lia.
  destruct l; [now destruct (2 * i)%nat|reflexivity].
Qed.

Lemma length_evens {A} (l : list A) :
  List.length (evens l) = Nat.div2 (S (List.length l)).
Proof.
  induction l as [|a|a b l IH] using list_pair_ind; try reflexivity.
  cbn [evens Datatypes.length]. rewrite IH. reflexivity.
Qed.

Lemma length_odds {A} (l : list A) :
  List.length (odds l) = Nat.div2 (List.length l).
Proof.
  unfold odds. rewrite length_evens. destruct l; reflexivity.
Qed.

Lemma div2_le_succ n : (Nat.div2 n <= Nat.div2 (S n))%nat.
Proof.
  induction n as [n IH] using lt_wf_ind.
  destruct n as [|[|n]]; simpl; try lia.
  specialize (IH n ltac:(lia)). simpl in IH. lia.
Qed.

Lemma nth_error_combine {A B} (l : list A) (l' : list B) i a b :
  nth_error (combine l l') i = Some (a, b) <->
  nth_error l i = Some a /\ nth_error l' i = Some b.
Proof.
  revert l' i. induction l as [|x l IH]; intros [|y l'] [|i]; simpl;
    try (split; [discriminate|intros [? ?]; discriminate]).
  - split; [intros H; injection H as -> ->; auto|].
    intros [H1 H2]. congruence.
  - apply IH.
Qed.

Lemma Forall2_nth_error {A B} (R : A -> B -> Prop) l bs i b :
  Forall2 R l bs -> nth_error bs i = Some b ->
  exists a, nth_error l i = Some a /\ R a b.
Proof.
  intros H. revert i. induction H as [|x y l bs Hxy _ IH]; intros [|i];
    simpl; try discriminate.
  - intros E. injection E as <-. eauto.
  - apply IH.
Qed.

(** X6. The footprint vertices: the tokens of the polygon string are read
    as latitude, longitude, latitude, ... and paired as (longitude,
    latitude); vertex [i] comes from tokens [2i+1] and [2i], and with an odd
    number of tokens the last one is dropped without an error. *)
Theorem footprint_coords_pairs :
  forall F (float : string -> result F) polygons coordlist ring s coords,
    index polygons 0 = Ok coordlist ->
    index coordlist 0 = Ok ring ->
    index ring 0 = Ok s ->
    footprint_coords F float polygons = Ok coords ->
    List.length coords = Nat.div2 (List.length (split " " s)) /\
    forall i lon lat,
      nth_error coords i = Some (lon, lat) ->
      exists tlat tlon,
        nth_error (split " " s) (2 * i) = Some tlat /\
        nth_error (split " " s) (2 * i + 1) = Some tlon /\
        float tlon = Ok lon /\ float tlat = Ok lat.
Proof.
  intros F float polygons coordlist ring s coords Hp Hc Hr H.
  unfold footprint_coords in H. rewrite Hp in H. cbn [bind] in H.
  rewrite Hc in H. cbn [bind] in H. rewrite Hr in H. cbn [bind] in H.
  pose proof (mapM_length _ _ _ H) as Hlen.
  apply mapM_Forall2 in H. split.
  - rewrite Hlen, length_combine, length_odds, length_evens.
    pose proof (div2_le_succ (List.length (split " " s))). lia.
  - intros i lon lat Hi.
    destruct (Forall2_nth_error _ _ _ _ _ H Hi) as ([tlon tlat] & Hn & Hf).
    apply nth_error_combine in Hn as [Hlon Hlat].
    rewrite nth_error_odds in Hlon. rewrite nth_error_evens in Hlat.
    exists tlat, tlon. cbn [fst snd] in Hf.
    destruct (float tlon) as [a|] eqn:Ea; [|discriminate]. cbn [bind] in Hf.
    destruct (float tlat) as [b|] eqn:Eb; [|discriminate]. cbn [bind] in Hf.
    injection Hf as <- <-. auto.
Qed.

Lemma footprint_coords_pairs_witness :
  footprint_coords N float_dec [[["48 122 49 123 50"]]]
  = Ok [(122, 48); (123, 49)]%N /\
  List.length [(122, 48); (123, 49)]%N
  = Nat.div2 (List.length (split " " "48 122 49 123 50")).
Proof.
  split; [reflexivity|].
  exact (proj1 (footprint_coords_pairs N float_dec
                  [[["48 122 49 123 50"]]] _ _ _ _
                  eq_refl eq_refl eq_refl eq_refl)).
Defined.

(** ** The tap recorder *)

Lemma fold_record_coords clicks : forall taps,
  fold_left (fun t c => record_coords (fst c) (snd c) t) clicks taps
  = taps ++ complete_clicks clicks.
Proof.
  induction clicks as [|[[a|] [b|]] clicks IH]; intros taps;
    cbn [fold_left complete_clicks record_coords fst snd].
  - now rewrite app_nil_r.
  - rewrite IH, <- app_assoc. reflexivity.
  - apply IH.
  - apply IH.
  - apply IH.
Qed.

(** X7. Whatever was clicked, a centre is always selected: it is the first
    click that carried both coordinates, and the built-in default point when
    there was none; clicks with a missing coordinate leave no trace. *)
Theorem selected_center_is_first_complete_click :
  forall clicks,
    selected_center clicks = Ok (hd default_point (complete_clicks clicks)).
Proof.
  intros clicks. unfold selected_center.
  rewrite fold_record_coords. cbn [app].
  unfold taps_or_default.
  destruct (complete_clicks clicks); reflexivity.
Qed.

(** ** [create_multiband_dataset] for any list of bands *)

Lemma assoc_app_None {V} k (l l' : list (string * V)) :
  assoc k l = None -> assoc k (l ++ l') = assoc k l'.
Proof.
  induction l as [|[k0 v0] l IH]; simpl; [reflexivity|].
  destruct (String.eqb k k0); [discriminate|assumption].
Qed.

Lemma assoc_None_names {V} k (l : list (string * V)) :
  ~ In k (names l) -> assoc k l = None.
Proof.
  intros H. destruct (assoc k l) eqn:E; [|reflexivity].
  exfalso. apply H. eapply assoc_Some_In_names. eassumption.
Qed.

Lemma merge_vars_distinct vs : forall acc,
  NoDup (names vs) ->
  (forall k, In k (names vs) -> assoc k acc = None) ->
  merge_vars acc vs = Ok (acc ++ vs).
Proof.
  induction vs as [|[k a] vs IH]; intros acc Hnd Hacc.
  - simpl. now rewrite app_nil_r.
  - cbn [names map fst] in Hnd. inversion Hnd as [|? ? Hk Hnd']; subst.
    cbn [merge_vars]. rewrite (Hacc k (or_introl eq_refl)).
    rewrite IH.
    + now rewrite <- app_assoc.
    + assumption.
    + intros k' Hk'. rewrite assoc_app_None by (apply Hacc; now right).
      simpl. destruct (String.eqb_spec k' k) as [->|]; [|reflexivity].
      contradiction.
Qed.

Lemma mapM_open_bands open_rasterio row bands grids :
  Forall2 (band_opens open_rasterio row) bands grids ->
  mapM (fun band =>
          url <- row_get row band ;;
          da <- open_rasterio url ;;
          Ok (to_dataset band da)) bands
  = Ok (map (fun bg => to_dataset (fst bg) (snd bg)) (combine bands grids)).
Proof.
  induction 1 as [|band g bands grids (u & Hu & Hg) _ IH]; [reflexivity|].
  cbn [mapM]. rewrite Hu. cbn [bind]. rewrite Hg. cbn [bind].
  rewrite IH. reflexivity.
Qed.

Lemma Forall2_length_eq {A B} (R : A -> B -> Prop) l l' :
  Forall2 R l l' -> List.length l' = List.length l.
Proof. induction 1; simpl; congruence. Qed.

(** X8. Stage A for any non-empty list of distinct bands, none of them
    called [x] or [y] (the coordinates of a raster, which [to_dataset]
    refuses as a name), on rasters at least two pixels high and two
    pixels wide: when
    every band of the row opens, the result has the bands as variables, in
    the order asked for, on the outer-joined axes of all the rasters; no
    comparison of the rasters is made and nothing is raised. *)
Theorem create_multiband_dataset_distinct_bands :
  forall open_rasterio row bands grids,
    (forall u g, open_rasterio u = Ok g -> grid_2d g = true) ->
    bands <> [] -> NoDup bands -> ~ In "x" bands -> ~ In "y" bands ->
    Forall2 (band_opens open_rasterio row) bands grids ->
    create_multiband_dataset open_rasterio row bands
    = Ok (merged_grids bands grids) /\
    names (vars (merged_grids bands grids)) = bands.
Proof.
  intros open_rasterio row bands grids _ _ Hnd _ _ Hopen.
  pose proof (Forall2_length_eq _ _ _ Hopen) as Hlen.
  unfold create_multiband_dataset.
  rewrite (mapM_open_bands _ _ _ _ Hopen). cbn [bind].
  assert (Hys : forall (l : list (string * RasterGrid)),
             map ys (map (fun bg => to_dataset (fst bg) (snd bg)) l)
             = map gy (map snd l)).
  { intros l. rewrite !map_map. reflexivity. }
  assert (Hxs : forall (l : list (string * RasterGrid)),
             map xs (map (fun bg => to_dataset (fst bg) (snd bg)) l)
             = map gx (map snd l)).
  { intros l. rewrite !map_map. reflexivity. }
  assert (Hnames : names (vars (merged_grids bands grids)) = bands).
  { unfold merged_grids, names. cbn [vars]. rewrite map_map. cbn [fst].
    change (map (fun x => fst x) (combine bands grids))
      with (map fst (combine bands grids)).
    now apply combine_fst. }
  split; [|exact Hnames].
  unfold merge, align. rewrite Hys, Hxs, combine_snd by assumption.
  set (Y := joined_index (map gy grids)).
  set (X := joined_index (map gx grids)).
  assert (Hvars : List.concat
                    (map vars
                       (map (reindex_ds Y X)
                            (map (fun bg => to_dataset (fst bg) (snd bg))
                                 (combine bands grids))))
                  = vars (merged_grids bands grids)).
  { unfold merged_grids. cbn [vars]. fold Y X.
    induction (combine bands grids) as [|bg l IH]; [reflexivity|].
    cbn [map List.concat]. rewrite IH. reflexivity. }
  rewrite Hvars, merge_vars_distinct.
  - reflexivity.
  - now rewrite Hnames.
  - reflexivity.
Qed.

Lemma create_multiband_dataset_distinct_bands_witness :
  create_multiband_dataset ex_store ex_row3 ["B6"; "B4"; "B5"]
  = Ok (merged_grids ["B6"; "B4"; "B5"] [ex_b4; ex_a4; ex_a5]).
Proof.
  refine (proj1 (create_multiband_dataset_distinct_bands ex_store ex_row3
                   ["B6"; "B4"; "B5"] [ex_b4; ex_a4; ex_a5]
                   ex_store_2d _ _ _ _ _)).
  - discriminate.
  - repeat constructor; simpl; intuition discriminate.
  - simpl; intuition discriminate.
  - simpl; intuition discriminate.
  - repeat constructor; eexists; split; reflexivity.
Defined.



(** ** The loading loop *)

Lemma load_all_cons open_rasterio row df :
  load_all open_rasterio (row :: df)
  = match create_multiband_dataset open_rasterio row default_bands with
    | Ok ds => (ds :: fst (load_all open_rasterio df),
                Loading (date row) :: snd (load_all open_rasterio df))
    | Raise e => (fst (load_all open_rasterio df),
                  Loading (date row) :: Skipped e
                    :: snd (load_all open_rasterio df))
    end.
Proof.
  cbn [load_all]. destruct (load_all open_rasterio df). reflexivity.
Qed.

(** X10. The loading loop never stops early: it keeps, in table order, the
    datasets of exactly the rows that load, and its log holds a skip entry
    with error [e] exactly when some row of the table failed with [e]. *)
Theorem load_all_keeps_what_loads :
  forall open_rasterio df,
    fst (load_all open_rasterio df)
    = map (loaded open_rasterio) (filter (loads open_rasterio) df) /\
    forall e,
      In (Skipped e) (snd (load_all open_rasterio df)) <->
      exists row,
        In row df /\
        create_multiband_dataset open_rasterio row default_bands = Raise e.
Proof.
  intros open_rasterio df. induction df as [|row df [IH1 IH2]].
  - split; [reflexivity|]. intros e. split; [intros []|intros (? & [] & _)].
  - rewrite load_all_cons. cbn [filter]. unfold loads at 1.
    destruct (create_multiband_dataset open_rasterio row default_bands)
      as [ds|e0] eqn:E; cbn [fst snd map].
    + split.
      * unfold loaded at 1. rewrite E. now rewrite IH1.
      * intros e. split.
        -- intros [H|H]; [discriminate|].
           apply IH2 in H as (r & Hr & He). exists r. split; [now right|auto].
        -- intros (r & [<-|Hr] & He); [congruence|].
           right. apply IH2. eauto.
    + split; [exact IH1|].
      intros e. split.
      * intros [H|[H|H]]; [discriminate| |].
        -- injection H as <-. exists row. split; [now left|assumption].
        -- apply IH2 in H as (r & Hr & He). exists r. split; [now right|auto].
      * intros (r & [<-|Hr] & He).
        -- right. left. congruence.
        -- right. right. apply IH2. eauto.
Qed.

Lemma all_load_or_one_fails open_rasterio df :
  (forall row, In row df ->
     exists ds,
       create_multiband_dataset open_rasterio row default_bands = Ok ds) \/
  (exists row e,
     In row df /\
     create_multiband_dataset open_rasterio row default_bands = Raise e).
Proof.
  induction df as [|row df [IH|(r & e & Hr & He)]].
  - left. intros row [].
  - destruct (create_multiband_dataset open_rasterio row default_bands)
      as [ds|e] eqn:E.
    + left. intros r [<-|Hr]; eauto.
    + right. exists row, e. split; [now left|assumption].
  - right. exists r, e. split; [now right|assumption].
Qed.

Lemma unify_Ok_all_load open_rasterio df u :
  fst (unify open_rasterio df) = Ok u ->
  df <> [] /\
  forall row, In row df ->
    exists ds,
      create_multiband_dataset open_rasterio row default_bands = Ok ds.
Proof.
  intros Hu. split.
  - intros ->. discriminate Hu.
  - destruct (all_load_or_one_fails open_rasterio df)
      as [Hall|(row & e & Hrow & He)]; [exact Hall|].
    exfalso.
    destruct (load_all_skips open_rasterio df row e Hrow He) as [Hlt _].
    pose proof (load_all_names open_rasterio df) as Hn.
    unfold unify in Hu. destruct (load_all open_rasterio df) as [dss log].
    cbn [fst] in *.
    rewrite concat_length_mismatch in Hu; [discriminate|assumption|].
    rewrite length_map. lia.
Qed.

(** X11. On rasters at least two pixels high and two pixels wide, the two
    cells that build [DS] succeed exactly when the table is not empty and
    every one of its rows loads; an empty table and a single skipped row
    both end in an error at [xr.concat]. *)
Theorem unify_succeeds_iff_all_rows_load :
  forall open_rasterio df,
    (forall u g, open_rasterio u = Ok g -> grid_2d g = true) ->
    ((exists u, fst (unify open_rasterio df) = Ok u)
     <-> df <> [] /\
         forall row, In row df ->
           exists ds,
             create_multiband_dataset open_rasterio row default_bands
             = Ok ds).
Proof.
  intros open_rasterio df H2d.
  pose proof (store_2d_wf open_rasterio H2d) as Hwf. split.
  - intros [u Hu]. eapply unify_Ok_all_load. eassumption.
  - intros [Hne Hall].
    destruct (unify_all_ok open_rasterio df Hwf Hall Hne) as [Hu _].
    eauto.
Qed.

Lemma unify_succeeds_iff_all_rows_load_witness :
  exists u, fst (unify ex_store [ex_row "a" 5%Z; ex_row "b" 2%Z]) = Ok u.
Proof.
  apply (unify_succeeds_iff_all_rows_load ex_store
           [ex_row "a" 5%Z; ex_row "b" 2%Z] ex_store_2d).
  split; [discriminate|apply ex_store_loads].
Defined.

(** ** Items that already lie on the unified grid *)

Lemma monotonic_cons_all (r : Z -> Z -> bool) h t :
  (forall a b c, r a b = true -> r b c = true -> r a c = true) ->
  monotonic r (h :: t) = true ->
  monotonic r t = true /\ Forall (fun z => r h z = true) t.
Proof.
  intros Htrans. revert h. induction t as [|b t IH]; intros h H.
  - split; [reflexivity|constructor].
  - change (monotonic r (h :: b :: t))
      with (r h b && monotonic r (b :: t)) in H.
    apply andb_prop in H as [Hhb Ht]. split; [exact Ht|].
    destruct (IH b Ht) as [_ Hall]. constructor; [assumption|].
    eapply Forall_impl; [|exact Hall]. intros z Hz. cbv beta in Hz. eauto.
Qed.

Lemma monotonic_NoDup (r : Z -> Z -> bool) idx :
  (forall a b c, r a b = true -> r b c = true -> r a c = true) ->
  (forall a, r a a = false) ->
  monotonic r idx = true -> NoDup idx.
Proof.
  intros Htrans Hirr. induction idx as [|h t IH]; intros H; [constructor|].
  destruct (monotonic_cons_all r h t Htrans H) as [Ht Hall].
  constructor; [|auto].
  intros Hin. rewrite Forall_forall in Hall. specialize (Hall h Hin).
  rewrite Hirr in Hall. discriminate.
Qed.

Lemma strictly_monotonic_NoDup idx :
  strictly_monotonic idx = true -> NoDup idx.
Proof.
  unfold strictly_monotonic. intros H. apply orb_prop in H as [H|H].
  - apply (monotonic_NoDup Z.ltb); [| |exact H].
    + intros a b c Hab Hbc. apply Z.ltb_lt in Hab, Hbc. apply Z.ltb_lt. lia.
    + intros a. apply Z.ltb_irrefl.
  - apply (monotonic_NoDup Z.gtb); [| |exact H].
    + intros a b c. rewrite !Z.gtb_ltb. intros Hab Hbc.
      apply Z.ltb_lt in Hab, Hbc. apply Z.ltb_lt. lia.
    + intros a. rewrite Z.gtb_ltb. apply Z.ltb_irrefl.
Qed.

Lemma get_loc_nth idx : forall i,
  NoDup idx -> (i < List.length idx)%nat ->
  get_loc (nth i idx 0%Z) idx = Some i.
Proof.
  induction idx as [|h t IH]; intros i Hnd Hi; [simpl in Hi; lia|].
  inversion Hnd as [|? ? Hh Ht]; subst.
  destruct i as [|i]; simpl.
  - now rewrite Z.eqb_refl.
  - simpl in Hi. assert (Hlt : (i < List.length t)%nat) by lia.
    destruct (Z.eqb_spec (nth i t 0%Z) h) as [E|_].
    + exfalso. apply Hh. rewrite <- E. now apply nth_In.
    + now rewrite IH.
Qed.

Lemma rectangular_inv h w d :
  rectangular h w d = true ->
  List.length d = h /\ forall r, In r d -> List.length r = w.
Proof.
  unfold rectangular. intros H. apply andb_prop in H as [Hl Hr].
  apply Nat.eqb_eq in Hl. split; [assumption|].
  intros r Hin. rewrite forallb_forall in Hr. now apply Nat.eqb_eq, Hr.
Qed.

(** Reindexing an array onto its own axes gives the array back. *)
Lemma reindex_id oy ox d :
  NoDup oy -> NoDup ox ->
  rectangular (List.length oy) (List.length ox) d = true ->
  reindex oy ox d oy ox = d.
Proof.
  intros Hy Hx Hrect. apply rectangular_inv in Hrect as [Hlen Hrows].
  unfold reindex, Array2 in *.
  apply (nth_ext _ _ [] []); [now rewrite length_map|].
  intros i Hi. rewrite length_map in Hi.
  rewrite (nth_map_in _ oy i 0%Z) by assumption.
  assert (Hrow : List.length (nth i d []) = List.length ox).
  { apply Hrows. apply nth_In. lia. }
  apply (nth_ext _ _ NaN NaN); [now rewrite length_map|].
  intros j Hj. rewrite length_map in Hj.
  rewrite (nth_map_in _ ox j 0%Z) by assumption.
  unfold lookup_cell. rewrite !get_loc_nth by assumption. reflexivity.
Qed.

Lemma wf_dataset_inv ds :
  wf_dataset ds = true ->
  NoDup (ys ds) /\ NoDup (xs ds) /\
  forall k a, assoc k (vars ds) = Some a ->
    rectangular (List.length (ys ds)) (List.length (xs ds)) a = true.
Proof.
  unfold wf_dataset. intros H. repeat (apply andb_prop in H as [H ?]).
  split; [now apply strictly_monotonic_NoDup|].
  split; [now apply strictly_monotonic_NoDup|].
  intros k a Hk. apply assoc_In in Hk.
  match goal with Hf : forallb _ (vars ds) = true |- _ =>
    rewrite forallb_forall in Hf; exact (Hf _ Hk) end.
Qed.

(** X12. Scenes that share one grid are stacked as they are: when all
    items have the same [y] axis and the same [x] axis, the unified dataset
    has these axes, untouched, and the slice of every item is the item's
    own array, without padding. *)
Theorem concat_on_a_common_grid :
  forall first rest dim,
    Forall (fun ds => wf_dataset ds = true) (first :: rest) ->
    Forall (same_names first) rest ->
    List.length dim = List.length (first :: rest) ->
    all_same (map ys (first :: rest)) ->
    all_same (map xs (first :: rest)) ->
    concat (first :: rest) dim
    = Ok (mkUnified dim (ys first) (xs first)
            (map (fun k => (k, map (var_of k) (first :: rest)))
                 (names (vars first)))).
Proof.
  intros first rest dim Hwf Hnames Hlen Hsy Hsx.
  rewrite (concat_same_names _ _ _ Hnames).
  simpl in Hlen. rewrite (proj2 (Nat.eqb_eq _ _) Hlen).
  set (dss := first :: rest) in *.
  rewrite (joined_index_all_same _ (ys first) Hsy) by now left.
  rewrite (joined_index_all_same _ (xs first) Hsx) by now left.
  f_equal. f_equal. apply map_ext_in. intros k Hk.
  unfold stacked_on. f_equal. apply map_ext_in. intros ds Hds.
  assert (Ey : ys ds = ys first).
  { apply Hsy; [now apply in_map|now left]. }
  assert (Ex : xs ds = xs first).
  { apply Hsx; [now apply in_map|now left]. }
  rewrite Forall_forall in Hwf.
  destruct (wf_dataset_inv ds (Hwf ds Hds)) as (Ny & Nx & Hrect).
  assert (Hkds : In k (names (vars ds))).
  { destruct Hds as [<-|Hds]; [assumption|].
    rewrite Forall_forall in Hnames. now rewrite (Hnames ds Hds). }
  destruct (assoc_Some_names _ _ Hkds) as [a Ha].
  unfold var_of. rewrite Ha. rewrite <- Ey, <- Ex.
  apply reindex_id; try assumption. eapply Hrect. eassumption.
Qed.

Lemma concat_on_a_common_grid_witness :
  concat [ex_ds_a; ex_ds_a] [5; 7]%Z
  = Ok (mkUnified [5; 7]%Z [30; 0]%Z [0; 30]%Z
          [("B4", [gdata ex_a4; gdata ex_a4]);
           ("B5", [gdata ex_a5; gdata ex_a5])]).
Proof.
  refine (eq_trans
            (concat_on_a_common_grid ex_ds_a [ex_ds_a] [5; 7]%Z _ _ _ _ _) _).
  - repeat constructor.
  - repeat constructor.
  - reflexivity.
  - intros a b [<-|[<-|[]]] [<-|[<-|[]]]; reflexivity.
  - intros a b [<-|[<-|[]]] [<-|[<-|[]]]; reflexivity.
  - reflexivity.
Defined.

(** ** From the table to the index *)

(** X13. Every dataset the loading loop keeps is well-formed when the
    rasters of the store are, and are at least two pixels high and two
    pixels wide: non-empty, strictly monotonic axes, and every band of the
    shape the axes give. *)
Theorem load_all_datasets_well_formed :
  forall open_rasterio df,
    (forall u g, open_rasterio u = Ok g -> grid_2d g = true) ->
    Forall (fun ds => wf_dataset ds = true) (fst (load_all open_rasterio df)).
Proof.
  intros open_rasterio df H2d.
  pose proof (store_2d_wf open_rasterio H2d) as Hwf.
  induction df as [|row df IH]; [constructor|].
  rewrite load_all_cons.
  destruct (create_multiband_dataset open_rasterio row default_bands)
    as [ds|e] eqn:E; cbn [fst]; [|exact IH].
  constructor; [|exact IH].
  apply create_multiband_default_inv in E
    as (u4 & u5 & g4 & g5 & _ & _ & O4 & O5 & ->).
  apply merged_bands_wf; eapply Hwf; eassumption.
Qed.

Lemma load_all_datasets_well_formed_witness :
  Forall (fun ds => wf_dataset ds = true) (fst (load_all ex_store ex_df3)).
Proof.
  exact (load_all_datasets_well_formed ex_store ex_df3 ex_store_2d).
Defined.

Lemma unify_Ok_inv open_rasterio df u :
  (forall url g, open_rasterio url = Ok g -> wf_grid g = true) ->
  fst (unify open_rasterio df) = Ok u ->
  let dss := map (loaded open_rasterio) df in
  u = mkUnified (map date df)
        (joined_index (map ys dss)) (joined_index (map xs dss))
        (map (stacked_on (joined_index (map ys dss))
                         (joined_index (map xs dss)) dss)
             ["B4"; "B5"]).
Proof.
  intros Hwf Hu.
  destruct (unify_Ok_all_load open_rasterio df u Hu) as [Hne Hall].
  destruct (unify_all_ok open_rasterio df Hwf Hall Hne) as [Hu' _].
  cbv zeta in Hu'. cbv zeta. congruence.
Qed.

Lemma shape_ok_stacked Y X (dss : list Dataset) k n :
  n = List.length dss ->
  shape_ok n (List.length Y) (List.length X) (snd (stacked_on Y X dss k))
  = true.
Proof.
  intros ->. unfold stacked_on, shape_ok. cbn [snd].
  rewrite length_map, Nat.eqb_refl. cbn [andb].
  apply forallb_forall. intros sl Hsl.
  apply in_map_iff in Hsl as (ds & <- & _). apply rectangular_reindex.
Qed.

(** X14. On rasters at least two pixels high and two pixels wide, once
    the unified dataset exists the index computation cannot fail: [DS]
    always has the bands B4 and B5, every band has one slice per row of
    the table and the shape of the unified axes, and so has the NDVI
    array, on the same time, y and x axes. *)
Theorem ndvi_of_unified_dataset_exists :
  forall open_rasterio df u,
    (forall url g, open_rasterio url = Ok g -> grid_2d g = true) ->
    fst (unify open_rasterio df) = Ok u ->
    wf_unified u = true /\
    exists nd,
      NDVI u = Ok nd /\
      da_time nd = map date df /\ da_y nd = uy u /\ da_x nd = ux u /\
      shape_ok (List.length df) (List.length (uy u)) (List.length (ux u))
               (da_values nd) = true.
Proof.
  intros open_rasterio df u H2d Hu.
  pose proof (store_2d_wf open_rasterio H2d) as Hwf.
  pose proof (unify_Ok_inv open_rasterio df u Hwf Hu) as E. cbv zeta in E.
  set (dss := map (loaded open_rasterio) df) in *.
  set (Y := joined_index (map ys dss)) in *.
  set (X := joined_index (map xs dss)) in *.
  assert (Hn : List.length df = List.length dss).
  { unfold dss. now rewrite length_map. }
  assert (H4 : shape_ok (List.length df) (List.length Y) (List.length X)
                 (snd (stacked_on Y X dss "B4")) = true)
    by now apply shape_ok_stacked.
  assert (H5 : shape_ok (List.length df) (List.length Y) (List.length X)
                 (snd (stacked_on Y X dss "B5")) = true)
    by now apply shape_ok_stacked.
  subst u. split.
  - unfold wf_unified. cbn [time uy ux uvars map forallb].
    rewrite length_map, H4, H5. reflexivity.
  - eexists. split; [reflexivity|].
    cbn [da_time da_y da_x da_values binop time uy ux].
    repeat split. repeat apply shape_ok_map2; assumption.
Qed.

Lemma ndvi_of_unified_dataset_exists_witness :
  exists nd, NDVI ex_DS = Ok nd /\ da_time nd = [5; 2]%Z.
Proof.
  destruct (ndvi_of_unified_dataset_exists ex_store
              [ex_row "a" 5%Z; ex_row "b" 2%Z] ex_DS ex_store_2d eq_refl)
    as (_ & nd & Hnd & Ht & _).
  exists nd. split; [exact Hnd|exact Ht].
Defined.

Lemma lookup_cell_cell_at Y X d y x i j :
  get_loc y Y = Some i -> get_loc x X = Some j ->
  lookup_cell Y X d y x = Some (cell_at d i j).
Proof. unfold lookup_cell. now intros -> ->. Qed.

Lemma cell_at_reindex oy ox d Y X y x i j :
  get_loc y Y = Some i -> get_loc x X = Some j ->
  cell_at (reindex oy ox d Y X) i j
  = match lookup_cell oy ox d y x with
    | Some c => c
    | None => NaN
    end.
Proof.
  intros Hi Hj.
  assert (Hy : In y Y).
  { apply get_loc_Some in Hi as [? <-]. now apply nth_In. }
  assert (Hx : In x X).
  { apply get_loc_Some in Hj as [? <-]. now apply nth_In. }
  pose proof (lookup_cell_reindex oy ox d Y X y x Hy Hx) as H.
  rewrite (lookup_cell_cell_at _ _ _ _ _ _ _ Hi Hj) in H.
  now injection H.
Qed.

Lemma nth_error_get_loc z idx i :
  get_loc z idx = Some i -> nth_error idx i = Some z.
Proof.
  intros H. apply get_loc_Some in H as [Hlt <-].
  now apply nth_error_nth'.
Qed.

(** The cell of a stacked band at a position of the unified grid: the
    pixel of the item at the labels of the position, NaN when the item
    does not have them. *)
Lemma cell_of_stacked T Y X (dss : list Dataset) k t ds y x i j :
  nth_error dss t = Some ds ->
  get_loc y Y = Some i -> get_loc x X = Some j ->
  cell_of (mkDataArray T Y X (snd (stacked_on Y X dss k))) t i j
  = Some (match lookup_cell (ys ds) (xs ds) (var_of k ds) y x with
          | Some c => c
          | None => NaN
          end).
Proof.
  intros Ht Hi Hj. apply nth_error_get_loc in Hi, Hj.
  unfold cell_of, stacked_on, reindex. cbn [da_values snd]. unfold Array2.
  rewrite (map_nth_error _ _ _ Ht).
  rewrite (map_nth_error _ _ _ Hi).
  now rewrite (map_nth_error _ _ _ Hj).
Qed.

Lemma ex_store_u16 u g : ex_store u = Ok g -> uint16_grid g = true.
Proof.
  unfold ex_store.
  repeat match goal with |- context [String.eqb u ?s] =>
           destruct (String.eqb u s) end;
    intros H; inversion H; reflexivity.
Qed.

Lemma ex_store_w_2d u g : ex_store_w u = Ok g -> grid_2d g = true.
Proof.
  unfold ex_store_w.
  repeat match goal with |- context [String.eqb u ?s] =>
           destruct (String.eqb u s) end;
    intros H; inversion H; reflexivity.
Qed.

Lemma ex_store_w_u16 u g : ex_store_w u = Ok g -> uint16_grid g = true.
Proof.
  unfold ex_store_w.
  repeat match goal with |- context [String.eqb u ?s] =>
           destruct (String.eqb u s) end;
    intros H; inversion H; reflexivity.
Qed.

(** X15. End to end, on uint16 rasters at least two pixels high and two
    pixels wide: at a coordinate of the unified grid the NDVI array has a
    cell for every row of the table.  When the row's rasters cover the
    coordinate the cell is computed from that row's own B4 and B5 pixels,
    in the element type of the two band arrays (modulo 2^16 when nothing
    was padded, in float64 otherwise); when they do not, it is NaN. *)
Theorem ndvi_cell_from_item_pixels :
  forall open_rasterio df u b4 b5 nd t row,
    (forall url g, open_rasterio url = Ok g -> grid_2d g = true) ->
    (forall url g, open_rasterio url = Ok g -> uint16_grid g = true) ->
    fst (unify open_rasterio df) = Ok u ->
    getitem u "B4" = Ok b4 -> getitem u "B5" = Ok b5 ->
    NDVI u = Ok nd ->
    nth_error df t = Some row ->
    forall y x,
      In y (uy u) -> In x (ux u) ->
      let item := loaded open_rasterio row in
      let dt := result_dtype (dtype_of b5) (dtype_of b4) in
      exists i j,
        get_loc y (da_y nd) = Some i /\ get_loc x (da_x nd) = Some j /\
        cell_of nd t i j
        = Some (match lookup_cell (ys item) (xs item) (var_of "B4" item) y x,
                      lookup_cell (ys item) (xs item) (var_of "B5" item) y x
                with
                | Some c4, Some c5 => fdiv (sub_in dt c5 c4) (add_in dt c5 c4)
                | _, _ => NaN
                end).
Proof.
  intros open_rasterio df u b4 b5 nd t row H2d _ Hu H4 H5 Hnd Ht y x Hy Hx
         item dt.
  pose proof (store_2d_wf open_rasterio H2d) as Hwf.
  pose proof (unify_Ok_inv open_rasterio df u Hwf Hu) as E. cbv zeta in E.
  set (dss := map (loaded open_rasterio) df) in *.
  set (Y := joined_index (map ys dss)) in *.
  set (X := joined_index (map xs dss)) in *.
  rewrite (NDVI_unfold _ _ _ H4 H5) in Hnd. injection Hnd as <-.
  fold dt.
  subst u. cbn [uy ux] in Hy, Hx.
  unfold getitem in H4, H5. cbn in H4, H5.
  destruct (get_loc_In _ _ Hy) as [i Hi].
  destruct (get_loc_In _ _ Hx) as [j Hj].
  assert (Hitem : nth_error dss t = Some item).
  { unfold dss, item. now apply map_nth_error. }
  assert (C4 : cell_of b4 t i j
               = Some (match lookup_cell (ys item) (xs item)
                               (var_of "B4" item) y x with
                       | Some c => c
                       | None => NaN
                       end)).
  { injection H4 as <-.
    exact (cell_of_stacked _ Y X dss "B4" t item y x i j Hitem Hi Hj). }
  assert (C5 : cell_of b5 t i j
               = Some (match lookup_cell (ys item) (xs item)
                               (var_of "B5" item) y x with
                       | Some c => c
                       | None => NaN
                       end)).
  { injection H5 as <-.
    exact (cell_of_stacked _ Y X dss "B5" t item y x i j Hitem Hi Hj). }
  exists i, j.
  assert (Ey : da_y b5 = Y) by (injection H5 as <-; reflexivity).
  assert (Ex : da_x b5 = X) by (injection H5 as <-; reflexivity).
  cbn [binop da_y da_x]. rewrite Ey, Ex.
  split; [exact Hi|]. split; [exact Hj|].
  rewrite (cell_of_NDVI dt _ _ _ _ _ _ _ C4 C5). f_equal.
  unfold lookup_cell in *.
  destruct (get_loc y (ys item)) as [i'|].
  - destruct (get_loc x (xs item)) as [j'|]; [reflexivity|].
    unfold dt. rewrite (dtype_of_nan _ _ _ _ _ C4 eq_refl).
    now destruct (dtype_of b5).
  - unfold dt. rewrite (dtype_of_nan _ _ _ _ _ C4 eq_refl).
    now destruct (dtype_of b5).
Qed.

Lemma ndvi_cell_from_item_pixels_witness :
  (exists i j,
      get_loc 0%Z (da_y ex_NDVI) = Some i /\
      get_loc 30%Z (da_x ex_NDVI) = Some j /\
      cell_of ex_NDVI 0 i j
      = Some (fdiv (fsub (u16 8) (u16 4)) (fadd (u16 8) (u16 4)))) /\
  (exists i j,
      get_loc 60%Z (da_y ex_NDVI) = Some i /\
      get_loc 60%Z (da_x ex_NDVI) = Some j /\
      cell_of ex_NDVI 0 i j = Some NaN) /\
  (exists nd i j,
      NDVI ex_DS_w = Ok nd /\
      get_loc 30%Z (da_y nd) = Some i /\ get_loc 0%Z (da_x nd) = Some j /\
      cell_of nd 0 i j = Some (fdiv (u16 65529) (u16 7))).
Proof.
  split; [|split].
  - exact (ndvi_cell_from_item_pixels ex_store
             [ex_row "a" 5%Z; ex_row "b" 2%Z] ex_DS ex_B4 ex_B5 ex_NDVI 0
             (ex_row "a" 5%Z) ex_store_2d ex_store_u16
             eq_refl eq_refl eq_refl eq_refl eq_refl 0%Z 30%Z
             (or_introl eq_refl) (or_intror (or_introl eq_refl))).
  - exact (ndvi_cell_from_item_pixels ex_store
             [ex_row "a" 5%Z; ex_row "b" 2%Z] ex_DS ex_B4 ex_B5 ex_NDVI 0
             (ex_row "a" 5%Z) ex_store_2d ex_store_u16
             eq_refl eq_refl eq_refl eq_refl eq_refl 60%Z 60%Z
             (or_intror (or_intror (or_introl eq_refl)))
             (or_intror (or_intror (or_introl eq_refl)))).
  - eexists.
    destruct (ndvi_cell_from_item_pixels ex_store_w
                [ex_row "w" 5%Z; ex_row "w" 7%Z] ex_DS_w _ _ _ 0
                (ex_row "w" 5%Z) ex_store_w_2d ex_store_w_u16
                eq_refl eq_refl eq_refl eq_refl eq_refl 30%Z 0%Z
                (or_introl eq_refl) (or_introl eq_refl))
      as (i & j & Hi & Hj & Hc).
    exists i, j. split; [reflexivity|]. split; [exact Hi|].
    split; [exact Hj|exact Hc].
Defined.

(** ** Stage A on aligned bands *)

Lemma wf_grid_inv g :
  wf_grid g = true ->
  gy g <> [] /\ gx g <> [] /\ NoDup (gy g) /\ NoDup (gx g) /\
  rectangular (List.length (gy g)) (List.length (gx g)) (gdata g) = true.
Proof.
  intros H. destruct (wf_grid_nonempty g H) as [Hy Hx].
  unfold wf_grid in H. repeat (apply andb_prop in H as [H ?]).
  repeat split; try assumption; now apply strictly_monotonic_NoDup.
Qed.

(** X16. Bands on one grid are packed as they are: when the two rasters
    of a row (at least two pixels high and two pixels wide) have the same
    axes, the dataset of the row has these axes and holds the pixel arrays
    of the two rasters unchanged. *)
Theorem create_multiband_dataset_aligned_bands :
  forall open_rasterio row u4 u5 g4 g5,
    (forall u g, open_rasterio u = Ok g -> grid_2d g = true) ->
    row_get row "B4" = Ok u4 -> row_get row "B5" = Ok u5 ->
    open_rasterio u4 = Ok g4 -> open_rasterio u5 = Ok g5 ->
    gy g5 = gy g4 -> gx g5 = gx g4 ->
    create_multiband_dataset open_rasterio row default_bands
    = Ok (mkDataset (gy g4) (gx g4) [("B4", gdata g4); ("B5", gdata g5)]).
Proof.
  intros open_rasterio row u4 u5 g4 g5 H2d R4 R5 O4 O5 Ey Ex.
  pose proof (store_2d_wf open_rasterio H2d) as Hwf.
  rewrite (create_multiband_default _ _ _ _ _ _ R4 R5 O4 O5).
  destruct (wf_grid_inv _ (Hwf _ _ O4)) as (_ & _ & Ny4 & Nx4 & Hr4).
  destruct (wf_grid_inv _ (Hwf _ _ O5)) as (_ & _ & Ny5 & Nx5 & Hr5).
  unfold merged_bands. cbv zeta. rewrite Ey, Ex.
  assert (Hy : joined_index [gy g4; gy g4] = gy g4).
  { unfold joined_index. cbn [forallb].
    now rewrite (proj2 (index_eqb_eq _ _) eq_refl). }
  assert (Hx : joined_index [gx g4; gx g4] = gx g4).
  { unfold joined_index. cbn [forallb].
    now rewrite (proj2 (index_eqb_eq _ _) eq_refl). }
  rewrite Ey, Ex in Hr5.
  rewrite Hy, Hx, !reindex_id by assumption. reflexivity.
Qed.

Lemma create_multiband_dataset_aligned_bands_witness :
  create_multiband_dataset ex_store (ex_row "a" 5%Z) default_bands
  = Ok (mkDataset [30; 0]%Z [0; 30]%Z
          [("B4", gdata ex_a4); ("B5", gdata ex_a5)]).
Proof.
  exact (create_multiband_dataset_aligned_bands ex_store (ex_row "a" 5%Z)
           "a4" "a5" ex_a4 ex_a5 ex_store_2d
           eq_refl eq_refl eq_refl eq_refl eq_refl eq_refl).
Defined.

(** ** The unified grid and the rasters behind it *)

Lemma In_merged_bands_ys g4 g5 z :
  gy g4 <> [] -> gy g5 <> [] ->
  In z (ys (merged_bands g4 g5)) <-> In z (gy g4) \/ In z (gy g5).
Proof.
  intros H4 H5. cbn [merged_bands ys].
  rewrite In_joined_index by (repeat constructor; assumption).
  split.
  - intros (i & [<-|[<-|[]]] & Hz); auto.
  - intros [Hz|Hz]; eexists; (split; [|exact Hz]); simpl; auto.
Qed.

Lemma In_merged_bands_xs g4 g5 z :
  gx g4 <> [] -> gx g5 <> [] ->
  In z (xs (merged_bands g4 g5)) <-> In z (gx g4) \/ In z (gx g5).
Proof.
  intros H4 H5. cbn [merged_bands xs].
  rewrite In_joined_index by (repeat constructor; assumption).
  split.
  - intros (i & [<-|[<-|[]]] & Hz); auto.
  - intros [Hz|Hz]; eexists; (split; [|exact Hz]); simpl; auto.
Qed.

(** X17. The unified grid is the grid of the rasters that were opened
    (all at least two pixels high and two pixels wide): a coordinate is on
    the unified [y] axis (and likewise on the [x] axis) exactly when it is
    a coordinate of band 4 or band 5 of some row of the table. *)
Theorem unified_axes_cover_opened_rasters :
  forall open_rasterio df u,
    (forall url g, open_rasterio url = Ok g -> grid_2d g = true) ->
    fst (unify open_rasterio df) = Ok u ->
    (forall y,
        In y (uy u) <->
        exists row band g,
          In row df /\ In band default_bands /\
          band_opens open_rasterio row band g /\ In y (gy g)) /\
    (forall x,
        In x (ux u) <->
        exists row band g,
          In row df /\ In band default_bands /\
          band_opens open_rasterio row band g /\ In x (gx g)).
Proof.
  intros open_rasterio df u H2d Hu.
  pose proof (store_2d_wf open_rasterio H2d) as Hwf.
  destruct (unify_Ok_all_load open_rasterio df u Hu) as [Hne Hall].
  destruct (unify_all_ok open_rasterio df Hwf Hall Hne) as (Hu' & Hny & Hnx).
  cbv zeta in Hu'. rewrite Hu in Hu'. injection Hu' as ->. cbn [uy ux].
  assert (Hrow : forall row, In row df ->
            exists u4 u5 g4 g5,
              row_get row "B4" = Ok u4 /\ row_get row "B5" = Ok u5 /\
              open_rasterio u4 = Ok g4 /\ open_rasterio u5 = Ok g5 /\
              loaded open_rasterio row = merged_bands g4 g5).
  { intros row Hrow. destruct (Hall row Hrow) as [ds Hds].
    unfold loaded. rewrite Hds.
    apply create_multiband_default_inv in Hds. exact Hds. }
  assert (Hband : forall row band g u4 u5 g4 g5,
            row_get row "B4" = Ok u4 -> row_get row "B5" = Ok u5 ->
            open_rasterio u4 = Ok g4 -> open_rasterio u5 = Ok g5 ->
            In band default_bands -> band_opens open_rasterio row band g ->
            g = g4 \/ g = g5).
  { intros row band g u4 u5 g4 g5 R4 R5 O4 O5 [<-|[<-|[]]] (url & Hr & Ho).
    - left. congruence.
    - right. congruence. }
  split.
  - intros y. rewrite In_joined_index by assumption.
    rewrite map_map. split.
    + intros (i & Hi & Hy). apply in_map_iff in Hi as (row & <- & Hin).
      destruct (Hrow row Hin) as (u4 & u5 & g4 & g5 & R4 & R5 & O4 & O5 & E).
      rewrite E in Hy.
      destruct (wf_grid_inv _ (Hwf _ _ O4)) as (Y4 & _).
      destruct (wf_grid_inv _ (Hwf _ _ O5)) as (Y5 & _).
      apply In_merged_bands_ys in Hy as [Hy|Hy]; try assumption.
      * exists row, "B4", g4. repeat split; try assumption;
          [now left|exists u4; auto].
      * exists row, "B5", g5. repeat split; try assumption;
          [right; now left|exists u5; auto].
    + intros (row & band & g & Hin & Hb & Ho & Hy).
      destruct (Hrow row Hin) as (u4 & u5 & g4 & g5 & R4 & R5 & O4 & O5 & E).
      destruct (wf_grid_inv _ (Hwf _ _ O4)) as (Y4 & _).
      destruct (wf_grid_inv _ (Hwf _ _ O5)) as (Y5 & _).
      exists (ys (loaded open_rasterio row)).
      split; [apply in_map_iff; eauto|].
      rewrite E. apply In_merged_bands_ys; try assumption.
      destruct (Hband _ _ _ _ _ _ _ R4 R5 O4 O5 Hb Ho) as [->| ->]; auto.
  - intros x. rewrite In_joined_index by assumption.
    rewrite map_map. split.
    + intros (i & Hi & Hx). apply in_map_iff in Hi as (row & <- & Hin).
      destruct (Hrow row Hin) as (u4 & u5 & g4 & g5 & R4 & R5 & O4 & O5 & E).
      rewrite E in Hx.
      destruct (wf_grid_inv _ (Hwf _ _ O4)) as (_ & X4 & _).
      destruct (wf_grid_inv _ (Hwf _ _ O5)) as (_ & X5 & _).
      apply In_merged_bands_xs in Hx as [Hx|Hx]; try assumption.
      * exists row, "B4", g4. repeat split; try assumption;
          [now left|exists u4; auto].
      * exists row, "B5", g5. repeat split; try assumption;
          [right; now left|exists u5; auto].
    + intros (row & band & g & Hin & Hb & Ho & Hx).
      destruct (Hrow row Hin) as (u4 & u5 & g4 & g5 & R4 & R5 & O4 & O5 & E).
      destruct (wf_grid_inv _ (Hwf _ _ O4)) as (_ & X4 & _).
      destruct (wf_grid_inv _ (Hwf _ _ O5)) as (_ & X5 & _).
      exists (xs (loaded open_rasterio row)).
      split; [apply in_map_iff; eauto|].
      rewrite E. apply In_merged_bands_xs; try assumption.
      destruct (Hband _ _ _ _ _ _ _ R4 R5 O4 O5 Hb Ho) as [->| ->]; auto.
Qed.

Lemma unified_axes_cover_opened_rasters_witness :
  In 60%Z (uy ex_DS) <->
  exists row band g,
    In row [ex_row "a" 5%Z; ex_row "b" 2%Z] /\ In band default_bands /\
    band_opens ex_store row band g /\ In 60%Z (gy g).
Proof.
  exact (proj1 (unified_axes_cover_opened_rasters ex_store
                  [ex_row "a" 5%Z; ex_row "b" 2%Z] ex_DS ex_store_2d eq_refl)
               60%Z).
Defined.

(** ** More on window selection *)

Lemma count_le p q (idx : Index) :
  (forall z, p z = true -> q z = true) ->
  (count p idx <= count q idx)%nat.
Proof.
  intros H. unfold count. induction idx as [|z idx IH]; simpl; [lia|].
  destruct (p z) eqn:E.
  - rewrite (H z E). simpl. lia.
  - destruct (q z); simpl; lia.
Qed.

Lemma pyslice_empty {A} start stop (l : list A) :
  (stop <= start)%nat -> pyslice start stop l = [].
Proof.
  intros H. unfold pyslice. replace (stop - start)%nat with 0%nat by lia.
  reflexivity.
Qed.

(** X18. On a descending [y] axis (the axis of north-up scenes that share
    one grid) the notebook's window, written from the smaller to the larger
    coordinate, selects nothing: for every centre and every positive buffer
    the selection is empty along [y], without an error. *)
Theorem sel_window_descending_axis_is_empty :
  forall a xcen ycen buf w,
    monotonic Z.leb (da_y a) = false ->
    monotonic Z.geb (da_y a) = true ->
    (0 < buf)%Z ->
    sel_window a xcen ycen buf = Ok w ->
    da_y w = [] /\ Forall (fun img => img = []) (da_values w).
Proof.
  intros a xcen ycen buf w Hinc Hdec Hbuf H.
  unfold sel_window in H.
  apply bind_Ok in H as ([x0 x1] & _ & H).
  unfold slice_locs in H. rewrite Hinc, Hdec in H. cbn [bind fst snd] in H.
  injection H as <-. cbn [da_y da_values].
  assert (Hle : (count (fun z => z >=? ycen + buf)%Z (da_y a)
                 <= count (fun z => z >? ycen - buf)%Z (da_y a))%nat).
  { apply count_le. intros z Hz. rewrite Z.geb_leb in Hz.
    apply Z.leb_le in Hz. rewrite Z.gtb_ltb. apply Z.ltb_lt. lia. }
  split.
  - now apply pyslice_empty.
  - apply Forall_forall. intros img Himg.
    apply in_map_iff in Himg as (img0 & <- & _).
    now rewrite pyslice_empty.
Qed.

Lemma sel_window_descending_axis_is_empty_witness :
  da_y ex_NDVI_common = [30; 0]%Z /\
  exists w, sel_window ex_NDVI_common 15 15 20 = Ok w /\ da_y w = [].
Proof.
  split; [reflexivity|].
  eexists. split; [reflexivity|].
  exact (proj1 (sel_window_descending_axis_is_empty ex_NDVI_common
                  15 15 20 _ eq_refl eq_refl eq_refl eq_refl)).
Defined.

Lemma monotonic_weaken (r r' : Z -> Z -> bool) idx :
  (forall a b, r a b = true -> r' a b = true) ->
  monotonic r idx = true -> monotonic r' idx = true.
Proof.
  intros Hr. induction idx as [|a idx IH]; [reflexivity|].
  destruct idx as [|b idx]; [reflexivity|].
  change (monotonic r (a :: b :: idx))
    with (r a b && monotonic r (b :: idx)).
  change (monotonic r' (a :: b :: idx))
    with (r' a b && monotonic r' (b :: idx)).
  intros H. apply andb_prop in H as [Hab Ht].
  now rewrite (Hr _ _ Hab), (IH Ht).
Qed.

Lemma strictly_monotonic_weak idx :
  strictly_monotonic idx = true ->
  monotonic Z.leb idx = true \/ monotonic Z.geb idx = true.
Proof.
  unfold strictly_monotonic. intros H. apply orb_prop in H as [H|H].
  - left. apply (monotonic_weaken Z.ltb); [|exact H].
    intros a b Hab. apply Z.ltb_lt in Hab. apply Z.leb_le. lia.
  - right. apply (monotonic_weaken Z.gtb); [|exact H].
    intros a b. rewrite Z.gtb_ltb, Z.geb_leb. intros Hab.
    apply Z.ltb_lt in Hab. apply Z.leb_le. lia.
Qed.

Lemma slice_locs_monotonic idx lo hi :
  strictly_monotonic idx = true -> exists r, slice_locs idx lo hi = Ok r.
Proof.
  intros H. unfold slice_locs.
  destruct (monotonic Z.leb idx) eqn:E; [eauto|].
  destruct (strictly_monotonic_weak idx H) as [H'|H']; [congruence|].
  rewrite H'. eauto.
Qed.

Lemma joined_index_strictly_monotonic idxs :
  idxs <> [] ->
  Forall (fun i => i <> []) idxs ->
  Forall (fun i => strictly_monotonic i = true) idxs ->
  strictly_monotonic (joined_index idxs) = true.
Proof.
  intros Hne Hnn Hmono. destruct idxs as [|i0 rest]; [congruence|].
  rewrite joined_index_spec by assumption.
  destruct (forallb (index_eqb i0) rest).
  - now inversion Hmono.
  - unfold strictly_monotonic.
    now rewrite (ascending_monotonic _ (sort_unique_ascending _)).
Qed.

Lemma wf_dataset_monotonic ds :
  wf_dataset ds = true ->
  ys ds <> [] /\ xs ds <> [] /\
  strictly_monotonic (ys ds) = true /\ strictly_monotonic (xs ds) = true.
Proof.
  intros H. destruct (wf_dataset_nonempty ds H) as [Hy Hx].
  unfold wf_dataset in H. repeat (apply andb_prop in H as [H ?]). auto.
Qed.

(** X19. On the index of a dataset unified from rasters at least two
    pixels high and two pixels wide the window selection never raises,
    whatever the centre and the buffer: the unified axes are strictly
    monotonic, so both label slices are found by search. *)
Theorem sel_window_on_pipeline_never_raises :
  forall open_rasterio df u nd,
    (forall url g, open_rasterio url = Ok g -> grid_2d g = true) ->
    fst (unify open_rasterio df) = Ok u ->
    NDVI u = Ok nd ->
    strictly_monotonic (da_y nd) = true /\
    strictly_monotonic (da_x nd) = true /\
    forall xcen ycen buf,
      exists w, sel_window nd xcen ycen buf = Ok w /\ da_time w = map date df.
Proof.
  intros open_rasterio df u nd H2d Hu Hnd.
  pose proof (store_2d_wf open_rasterio H2d) as Hwf.
  destruct (unify_Ok_all_load open_rasterio df u Hu) as [Hne Hall].
  pose proof (unify_Ok_inv open_rasterio df u Hwf Hu) as E. cbv zeta in E.
  set (dss := map (loaded open_rasterio) df) in *.
  assert (Hdss : Forall (fun ds => wf_dataset ds = true) dss).
  { apply Forall_map, Forall_forall. intros row Hrow.
    destruct (Hall row Hrow) as [ds Hds]. unfold loaded. rewrite Hds.
    apply create_multiband_default_inv in Hds
      as (u4 & u5 & g4 & g5 & _ & _ & O4 & O5 & ->).
    apply merged_bands_wf; eapply Hwf; eassumption. }
  assert (Hdne : dss <> []).
  { unfold dss. destruct df; [congruence|discriminate]. }
  assert (HY : strictly_monotonic (joined_index (map ys dss)) = true).
  { apply joined_index_strictly_monotonic.
    - destruct dss; [congruence|discriminate].
    - apply Forall_map. eapply Forall_impl; [|exact Hdss].
      intros ds Hds. now apply wf_dataset_monotonic in Hds.
    - apply Forall_map. eapply Forall_impl; [|exact Hdss].
      intros ds Hds. now apply wf_dataset_monotonic in Hds. }
  assert (HX : strictly_monotonic (joined_index (map xs dss)) = true).
  { apply joined_index_strictly_monotonic.
    - destruct dss; [congruence|discriminate].
    - apply Forall_map. eapply Forall_impl; [|exact Hdss].
      intros ds Hds. now apply wf_dataset_monotonic in Hds.
    - apply Forall_map. eapply Forall_impl; [|exact Hdss].
      intros ds Hds. now apply wf_dataset_monotonic in Hds. }
  subst u. unfold NDVI, getitem in Hnd. cbn in Hnd. injection Hnd as <-.
  cbn [da_y da_x da_time binop].
  split; [exact HY|]. split; [exact HX|].
  intros xcen ycen buf. unfold sel_window. cbn [da_y da_x da_time binop].
  destruct (slice_locs_monotonic _ (xcen - buf) (xcen + buf) HX) as [rx ->].
  destruct (slice_locs_monotonic _ (ycen - buf) (ycen + buf) HY) as [ry ->].
  cbn [bind]. eexists. split; reflexivity.
Qed.

Lemma sel_window_on_pipeline_never_raises_witness :
  exists w, sel_window ex_NDVI 1000 (-7) 3 = Ok w /\ da_time w = [5; 2]%Z.
Proof.
  exact (proj2 (proj2 (sel_window_on_pipeline_never_raises ex_store
                         [ex_row "a" 5%Z; ex_row "b" 2%Z] ex_DS ex_NDVI
                         ex_store_2d eq_refl eq_refl))
               1000%Z (-7)%Z 3%Z).
Defined.







Lemma pyslice_pyslice {A} s e s' e' (l : list A) :
  (e' <= e - s)%nat ->
  pyslice s' e' (pyslice s e l) = pyslice (s + s') (s + e') l.
Proof.
  intros H. unfold pyslice.
  rewrite skipn_firstn_comm, firstn_firstn, skipn_skipn.
  replace (Nat.min (e' - s') (e - s - s')) with (e' - s')%nat by lia.
  replace (s + e' - (s + s'))%nat with (e' - s')%nat by lia.
  now rewrite (Nat.add_comm s' s).
Qed.

Lemma pyslice_map {A B} (g : A -> B) s e (l : list A) :
  pyslice s e (map g l) = map g (pyslice s e l).
Proof. unfold pyslice. now rewrite skipn_map, firstn_map. Qed.

Lemma monotonic_intro (r : Z -> Z -> bool) h t :
  Forall (fun z => r h z = true) t -> monotonic r t = true ->
  monotonic r (h :: t) = true.
Proof.
  intros Hall Ht. destruct t as [|b t]; [reflexivity|].
  change (monotonic r (h :: b :: t)) with (r h b && monotonic r (b :: t)).
  inversion Hall; subst. now apply andb_true_intro.
Qed.

Lemma monotonic_leb_filter p idx :
  monotonic Z.leb idx = true -> monotonic Z.leb (filter p idx) = true.
Proof.
  induction idx as [|h t IH]; intros H; [reflexivity|].
  apply monotonic_leb_cons in H as [Ht Hall]. simpl.
  destruct (p h); [|auto].
  apply monotonic_intro; [|auto].
  apply Forall_forall. intros z Hz. apply filter_In in Hz as [Hz _].
  rewrite Forall_forall in Hall. apply Z.leb_le. auto.
Qed.

(** Counting in a window first: the labels below [lo'] are those below
    the window plus those of the window below [lo']. *)
Lemma count_below_in_window lo hi lo' (idx : Index) :
  (lo <= lo')%Z -> (lo' <= hi)%Z ->
  count (fun z => z <? lo')%Z idx
  = (count (fun z => z <? lo)%Z idx
     + count (fun z => z <? lo')%Z
             (filter (fun z => (lo <=? z) && (z <=? hi))%Z idx))%nat.
Proof.
  intros H1 H2. unfold count. induction idx as [|z idx IH]; [reflexivity|].
  cbn [filter].
  destruct (Z.ltb_spec z lo'); destruct (Z.ltb_spec z lo);
    destruct (Z.leb_spec lo z); destruct (Z.leb_spec z hi); try lia;
    cbn [andb filter Datatypes.length];
    repeat match goal with
           | |- context [(z <? lo')%Z] =>
               destruct (Z.ltb_spec z lo'); try lia
           end;
    cbn [Datatypes.length]; lia.
Qed.

Lemma count_upto_in_window lo hi hi' (idx : Index) :
  (lo <= hi')%Z -> (hi' <= hi)%Z ->
  count (fun z => z <=? hi')%Z idx
  = (count (fun z => z <? lo)%Z idx
     + count (fun z => z <=? hi')%Z
             (filter (fun z => (lo <=? z) && (z <=? hi))%Z idx))%nat.
Proof.
  intros H1 H2. unfold count. induction idx as [|z idx IH]; [reflexivity|].
  cbn [filter].
  destruct (Z.leb_spec z hi'); destruct (Z.ltb_spec z lo);
    destruct (Z.leb_spec lo z); destruct (Z.leb_spec z hi); try lia;
    cbn [andb filter Datatypes.length];
    repeat match goal with
           | |- context [(z <=? hi')%Z] =>
               destruct (Z.leb_spec z hi'); try lia
           end;
    cbn [Datatypes.length]; lia.
Qed.

(** Positions of a narrower window inside a wider one. *)
Lemma nested_positions lo hi lo' hi' (idx : Index) :
  monotonic Z.leb idx = true ->
  (lo <= lo')%Z -> (lo' <= hi')%Z -> (hi' <= hi)%Z ->
  let s := count (fun z => z <? lo)%Z idx in
  let e := count (fun z => z <=? hi)%Z idx in
  let w := pyslice s e idx in
  forall (A : Type) (l : list A),
    pyslice (count (fun z => z <? lo')%Z w) (count (fun z => z <=? hi')%Z w)
            (pyslice s e l)
    = pyslice (count (fun z => z <? lo')%Z idx)
              (count (fun z => z <=? hi')%Z idx) l.
Proof.
  intros Hm H1 H2 H3 s e w A l. unfold w, s, e.
  rewrite (pyslice_ascending idx lo hi Hm).
  rewrite (count_below_in_window lo hi lo' idx) by lia.
  rewrite (count_upto_in_window lo hi hi' idx) by lia.
  apply pyslice_pyslice.
  pose proof (count_upto_in_window lo hi hi' idx ltac:(lia) ltac:(lia)) as E.
  pose proof (count_le (fun z => z <=? hi')%Z (fun z => z <=? hi)%Z idx) as L.
  assert (count (fun z => z <=? hi')%Z idx
          <= count (fun z => z <=? hi)%Z idx)%nat.
  { apply L. intros z Hz. apply Z.leb_le in Hz. apply Z.leb_le. lia. }
  lia.
Qed.

(** X21. Windows nest: on ascending axes, cutting a window of radius [r]
    out of the selection of radius [R >= r] around the same centre gives
    what cutting it out of the whole array gives. *)
Theorem sel_window_nested :
  forall a xcen ycen R r wR,
    monotonic Z.leb (da_x a) = true -> monotonic Z.leb (da_y a) = true ->
    (0 <= r)%Z -> (r <= R)%Z ->
    sel_window a xcen ycen R = Ok wR ->
    sel_window wR xcen ycen r = sel_window a xcen ycen r.
Proof.
  intros a xcen ycen R r wR Hx Hy H0 HR HwR.
  rewrite (sel_window_ascending _ _ _ _ Hx Hy) in HwR. cbv zeta in HwR.
  injection HwR as <-.
  rewrite (sel_window_ascending a xcen ycen r Hx Hy).
  rewrite sel_window_ascending; cbn [da_x da_y da_time da_values].
  2:{ rewrite (pyslice_ascending _ _ _ Hx). now apply monotonic_leb_filter. }
  2:{ rewrite (pyslice_ascending _ _ _ Hy). now apply monotonic_leb_filter. }
  cbv zeta.
  pose proof (nested_positions (xcen - R) (xcen + R) (xcen - r) (xcen + r)
                (da_x a) Hx ltac:(lia) ltac:(lia) ltac:(lia)) as Px.
  pose proof (nested_positions (ycen - R) (ycen + R) (ycen - r) (ycen + r)
                (da_y a) Hy ltac:(lia) ltac:(lia) ltac:(lia)) as Py.
  cbv zeta in Px, Py.
  rewrite Px, Py. do 2 f_equal.
  rewrite map_map. apply map_ext. intros img.
  rewrite pyslice_map, map_map, Py. apply map_ext. intros row.
  apply Px.
Qed.

Lemma sel_window_nested_witness :
  exists wR,
    sel_window ex_NDVI 30 30 40 = Ok wR /\
    sel_window wR 30 30 10 = sel_window ex_NDVI 30 30 10.
Proof.
  eexists. split; [reflexivity|].
  exact (sel_window_nested ex_NDVI 30 30 40 10 _ eq_refl eq_refl
           ltac:(discriminate) ltac:(discriminate) eq_refl).
Defined.

Lemma length_pyslice_same {A B} s e (l : list A) (l' : list B) :
  List.length l = List.length l' ->
  List.length (pyslice s e l) = List.length (pyslice s e l').
Proof.
  intros H. unfold pyslice. rewrite !length_firstn, !length_skipn. lia.
Qed.

Lemma In_pyslice {A} s e (l : list A) x : In x (pyslice s e l) -> In x l.
Proof.
  unfold pyslice. intros H.
  rewrite <- (firstn_skipn s l). apply in_or_app. right.
  rewrite <- (firstn_skipn (e - s) (skipn s l)). apply in_or_app. now left.
Qed.

(** X22. A window of a well-shaped array is well-shaped: it keeps the time
    axis, and every time slice has one row per selected [y] label and one
    cell per selected [x] label. *)
Theorem sel_window_keeps_shape :
  forall a xcen ycen buf w nt,
    shape_ok nt (List.length (da_y a)) (List.length (da_x a)) (da_values a)
    = true ->
    sel_window a xcen ycen buf = Ok w ->
    da_time w = da_time a /\
    shape_ok nt (List.length (da_y w)) (List.length (da_x w)) (da_values w)
    = true.
Proof.
  intros a xcen ycen buf w nt Hs H. unfold sel_window in H.
  apply bind_Ok in H as ([x0 x1] & _ & H).
  apply bind_Ok in H as ([y0 y1] & _ & H).
  cbn [fst snd] in H. injection H as <-.
  cbn [da_time da_y da_x da_values]. split; [reflexivity|].
  unfold shape_ok in *. apply andb_prop in Hs as [Hn Himgs].
  rewrite length_map. apply andb_true_intro. split; [exact Hn|].
  apply forallb_forall. intros img' Himg'.
  apply in_map_iff in Himg' as (img & <- & Himg).
  rewrite forallb_forall in Himgs.
  destruct (rectangular_inv _ _ _ (Himgs img Himg)) as [Hlen Hrows].
  unfold rectangular. apply andb_true_intro. split.
  - apply Nat.eqb_eq. rewrite length_map.
    apply length_pyslice_same. exact Hlen.
  - apply forallb_forall. intros r' Hr'.
    apply in_map_iff in Hr' as (r0 & <- & Hr0).
    apply Nat.eqb_eq. apply length_pyslice_same. apply Hrows.
    eapply In_pyslice. eassumption.
Qed.

Lemma sel_window_keeps_shape_witness :
  exists w,
    sel_window ex_NDVI 30 30 40 = Ok w /\
    shape_ok 2 (List.length (da_y w)) (List.length (da_x w)) (da_values w)
    = true.
Proof.
  eexists. split; [reflexivity|].
  exact (proj2 (sel_window_keeps_shape ex_NDVI 30 30 40 _ 2 eq_refl eq_refl)).
Defined.

(** ** From the catalogue to the time axis *)

(** X23. End to end, the time axis of the unified dataset reads the
    catalogue: its entries are the dates of the identifiers' fourth
    fields, one per catalogue entry but the last, in catalogue order. *)
Theorem time_axis_follows_catalog :
  forall to_datetime open_rasterio pids df u,
    (forall url g, open_rasterio url = Ok g -> wf_grid g = true) ->
    archive_of_catalog to_datetime pids = Ok df ->
    fst (unify open_rasterio df) = Ok u ->
    Forall2 (fun x d => date_of to_datetime x = Ok d)
            (removelast pids) (time u).
Proof.
  intros to_datetime open_rasterio pids df u _ Hdf Hu.
  unfold archive_of_catalog in Hdf.
  destruct (make_google_archive_dates _ _ _ _ Hdf) as [_ Hd].
  now rewrite (unify_time _ _ _ Hu).
Qed.

Lemma ex_store_any_wf u g : ex_store_any u = Ok g -> wf_grid g = true.
Proof. unfold ex_store_any. intros H. injection H as <-. reflexivity. Qed.

Lemma time_axis_follows_catalog_witness :
  exists df u,
    archive_of_catalog to_datetime_yyyymmdd ex_catalog = Ok df /\
    fst (unify ex_store_any df) = Ok u /\
    time u = [20130421; 20130523]%Z /\
    Forall2 (fun x d => date_of to_datetime_yyyymmdd x = Ok d)
            (removelast ex_catalog) (time u).
Proof.
  eexists. eexists. split; [reflexivity|]. split; [reflexivity|].
  split; [reflexivity|].
  exact (time_axis_follows_catalog to_datetime_yyyymmdd ex_store_any
           ex_catalog _ _ ex_store_any_wf eq_refl eq_refl).
Defined.
